(** * dem_mosaic: tile partition, weights, compositor and driver

    A shallow embedding of [src/asp/Tools/dem_mosaic.cc].  C++ [int] values
    are modelled by [Z] on the runs where no signed overflow occurs (signed
    overflow is undefined in C++, so there is no wrap-around to write out);
    [double] values are modelled through an interface of operations that is
    instantiated by IEEE-754 binary64 ([SpecFloat], prec 53, emax 1024) and
    by exact rationals. *)

From Stdlib Require Import ZArith List Bool Lia String Ascii.
From Stdlib Require Import DecimalString DecimalPos DecimalZ.
From Stdlib Require Finite.
From Stdlib Require Import SpecFloat.
From Stdlib Require Import QArith Qround Qabs Lqa.
Import ListNotations.
Local Open Scope Z_scope.

(** ** Integer boxes ([vw::BBox2i]) *)

Record BBox2i := mkBBox2i {
  bmin_x : Z; bmin_y : Z;   (* inclusive lower corner *)
  bmax_x : Z; bmax_y : Z    (* exclusive upper corner *)
}.

(** [BBox2i(x, y, w, h)]: corner and size. *)
Definition BBox2i_xywh (x y w h : Z) : BBox2i :=
  mkBBox2i x y (x + w) (y + h).

Definition bwidth (b : BBox2i) : Z := bmax_x b - bmin_x b.
Definition bheight (b : BBox2i) : Z := bmax_y b - bmin_y b.

(** [BBox::contains(point)] for an integer box: min <= p < max. *)
Definition bcontains (b : BBox2i) (px py : Z) : bool :=
  (bmin_x b <=? px) && (px <? bmax_x b) &&
  (bmin_y b <=? py) && (py <? bmax_y b).

(** Modelled from the spec: [BBox::crop(other)] of the image library, which
    is not among the sources.  The tile box is "clamped to mosaic extent" and
    "empty-bounds tiles (after clipping to mosaic extent) are skipped with a
    diagnostic, not written": the lower corner is raised and the upper corner
    lowered, coordinate by coordinate, and along an axis on which the two
    boxes do not meet the result has extent zero, which is what the test of
    line 648 looks for. *)
Definition bcrop (b o : BBox2i) : BBox2i :=
  let lo_x := if bmin_x b <? bmin_x o then bmin_x o else bmin_x b in
  let lo_y := if bmin_y b <? bmin_y o then bmin_y o else bmin_y b in
  let hi_x := if bmax_x b >? bmax_x o then bmax_x o else bmax_x b in
  let hi_y := if bmax_y b >? bmax_y o then bmax_y o else bmax_y b in
  mkBBox2i lo_x lo_y
           (if hi_x <? lo_x then lo_x else hi_x)
           (if hi_y <? lo_y then lo_y else hi_y).

(** ** Tile partition (main, lines 600-606 and 629-635) *)

Module Tiles.

(** [(int)ceil((double)dim/double(tile_size))].  For [int] operands and
    [tile_size >= 1] the rounded double quotient is an integer exactly when
    the real quotient is one, so the result is the integer ceiling. *)
Definition ceil_div (dim tile_size : Z) : Z := - ((- dim) / tile_size).

Definition num_tiles_axis (dim tile_size : Z) : Z :=
  let n := ceil_div dim tile_size in
  if n <=? 0 then 1 else n.

Definition num_tiles_x (cols tile_size : Z) : Z := num_tiles_axis cols tile_size.
Definition num_tiles_y (rows tile_size : Z) : Z := num_tiles_axis rows tile_size.

Definition num_tiles (cols rows tile_size : Z) : Z :=
  num_tiles_x cols tile_size * num_tiles_y rows tile_size.

(** [int tile_index_y = tile_id / num_tiles_y;] (C division truncates). *)
Definition tile_index_y (tile_id nty : Z) : Z := Z.quot tile_id nty.

(** [int tile_index_x = tile_id - tile_index_y*num_tiles_y;] *)
Definition tile_index_x (tile_id nty : Z) : Z :=
  tile_id - tile_index_y tile_id nty * nty.

(** The tile's pixel box before it is cropped to the mosaic extent. *)
Definition tile_box (tile_id nty tile_size : Z) : BBox2i :=
  BBox2i_xywh (tile_index_x tile_id nty * tile_size)
              (tile_index_y tile_id nty * tile_size)
              tile_size tile_size.

Definition mosaic_box (cols rows : Z) : BBox2i := BBox2i_xywh 0 0 cols rows.

(** [tile_box.crop(BBox2i(0, 0, cols, rows))] *)
Definition cropped_tile_box (tile_id nty tile_size cols rows : Z) : BBox2i :=
  bcrop (tile_box tile_id nty tile_size) (mosaic_box cols rows).

(** Tile ids [start, start+1, ..., stop-1] of the loop
    [for (tile_id = start; tile_id < stop; tile_id++)]. *)
Definition tile_ids (start stop : Z) : list Z :=
  map (fun k => start + Z.of_nat k) (seq 0 (Z.to_nat (stop - start))).

(** The index pairs and boxes the loop goes through when all tiles are
    selected. *)
Definition all_tile_indices (cols rows tile_size : Z) : list (Z * Z) :=
  let nty := num_tiles_y rows tile_size in
  map (fun id => (tile_index_x id nty, tile_index_y id nty))
      (tile_ids 0 (num_tiles cols rows tile_size)).

Definition all_tile_boxes (cols rows tile_size : Z) : list BBox2i :=
  let nty := num_tiles_y rows tile_size in
  map (fun id => tile_box id nty tile_size)
      (tile_ids 0 (num_tiles cols rows tile_size)).

Definition covered (boxes : list BBox2i) (px py : Z) : bool :=
  existsb (fun b => bcontains b px py) boxes.

End Tiles.

(** ** The [double] interface

    The compositor computes in [double].  Its operations are taken through
    [DoubleOps]; [Binary64] below instantiates them with IEEE-754 binary64
    and [Exact] with rational arithmetic. *)

Class DoubleOps (F : Type) := {
  of_int : Z -> F;                (* int -> double conversion *)
  dadd : F -> F -> F;
  dsub : F -> F -> F;
  dmul : F -> F -> F;
  ddiv : F -> F -> F;
  dabs : F -> F;                  (* fabs *)
  dltb : F -> F -> bool;          (* x < y *)
  dleb : F -> F -> bool;          (* x <= y *)
  deqb : F -> F -> bool;          (* x == y *)
  disnan : F -> bool;             (* isnan *)
  round_int : F -> Z;             (* (int)round(x) *)
  floor_int : F -> Z              (* (int)floor(x) *)
}.

Definition dzero {F} `{DoubleOps F} : F := of_int 0.
Definition done {F} `{DoubleOps F} : F := of_int 1.

(** [double g_tol = 1e-6;]  The literal denotes the double nearest to
    10^-6; a correctly rounded division of the exact doubles 1 and 10^6
    yields the same number. *)
Definition g_tol {F} `{DoubleOps F} : F := ddiv (of_int 1) (of_int 1000000).

(** Conversion of an integral double to [int]: the value when it fits,
    otherwise the "integer indefinite" value that the x86-64 conversion
    instruction produces (the C++ standard leaves that case undefined). *)
Definition int_indefinite : Z := -2147483648.
Definition to_int (z : option Z) : Z :=
  match z with
  | Some z => if (-2147483648 <=? z) && (z <=? 2147483647) then z
              else int_indefinite
  | None => int_indefinite
  end.

(** ** Images and pixels *)

(** [vw::ImageView<A>]: a size and an unchecked pixel accessor.  The
    accessor is total: outside [0,cols) x [0,rows) it stands for whatever an
    unchecked read returns. *)
Record Image (A : Type) := mkImage {
  cols : Z;
  rows : Z;
  px : Z -> Z -> A
}.
Arguments mkImage {A}.
Arguments cols {A}.
Arguments rows {A}.
Arguments px {A}.

Definition in_image {A} (im : Image A) (c r : Z) : bool :=
  (0 <=? c) && (c <=? cols im - 1) && (0 <=? r) && (r <=? rows im - 1).

(** [PixelGrayA<double>]: value and alpha (weight) channels. *)
Record GrayA (F : Type) := mkGrayA { pv : F; pa : F }.
Arguments mkGrayA {F}.
Arguments pv {F}.
Arguments pa {F}.

(** Index ranges [0, 1, ..., n-1] of the loops. *)
Definition range (n : Z) : list Z := map Z.of_nat (seq 0 (Z.to_nat n)).

Definition pixel_list (ncols nrows : Z) : list (Z * Z) :=
  flat_map (fun c => map (fun r => (c, r)) (range nrows)) (range ncols).

(** ** Weights (prerasterize, lines 214-243) *)

Module Weights.
Section Weights.
Context {F : Type} `{DoubleOps F}.

(** [ChannelRange<double>::max()] and [min()] of the image library. *)
Definition range_max : F := of_int 1.
Definition range_min : F := of_int 0.

(** [NotNoDataFunctor::operator()] *)
Definition NotNoDataFunctor (m_nodata val : F) : F :=
  if negb (deqb val m_nodata) && negb (disnan val)
  then range_max else range_min.

(** [BigOrZero::operator()].  The weight images hold integer-valued doubles
    (0 or 1e+8 here, the [int32] grassfire distances in blended mode); they
    are represented by their integer values. *)
Definition BigOrZero (m_nodata pix : F) : Z :=
  if negb (deqb pix m_nodata) then 100000000 else 0.

(** The grassfire transform belongs to the image library; it is a parameter
    here.  It takes the mask image and returns the [int32] distances. *)
Variable grassfire : Image F -> Z -> Z -> Z.

(** [notnodata(select_channel(dem, 0), nodata_value)] *)
Definition notnodata (dem : Image F) (nodata : F) : Image F :=
  mkImage (cols dem) (rows dem)
          (fun c r => NotNoDataFunctor nodata (px dem c r)).

(** Lines 215-221. *)
Definition local_wts (draft_mode : bool) (nodata : F) (dem : Image F)
  : Z -> Z -> Z :=
  if draft_mode then fun c r => BigOrZero nodata (px dem c r)
  else grassfire (notnodata dem nodata).

End Weights.

(** [max_pixel_value] over the [ncols] x [nrows] pixels of a weight image
    (called on non-empty images only: an empty [pix_box] is skipped at
    line 208). *)
Definition max_pixel_value (ncols nrows : Z) (w : Z -> Z -> Z) : Z :=
  fold_left Z.max (map (fun p => w (fst p) (snd p)) (pixel_list ncols nrows))
            (w 0 0).

(** [clamp(image, low, high)], per pixel. *)
Definition clamp (x low high : Z) : Z :=
  if x >? high then high else if x <? low then low else x.

(** Lines 231-236.  The weights are integers below 2^31, so the [int]
    conversion of their maximum and the double subtraction and clamp of the
    source are exact on them. *)
Definition erode (ncols nrows erode_len : Z) (w : Z -> Z -> Z)
  : Z -> Z -> Z :=
  let max_cutoff := max_pixel_value ncols nrows w in
  let min_cutoff := erode_len in
  let max_cutoff :=
    if max_cutoff <=? min_cutoff then min_cutoff + 1 else max_cutoff in
  fun c r => clamp (w c r - min_cutoff) 0 (max_cutoff - min_cutoff).

(** The clamp of the specification: bound below by [low], above by [high]. *)
Definition clamp_spec (x low high : Z) : Z := Z.max low (Z.min x high).

(** The ceiling of the specification. *)
Definition max_cutoff_spec (max_weight erode_len : Z) : Z :=
  if max_weight >? erode_len then max_weight else erode_len + 1.

End Weights.

(** ** Tile compositor ([DemMosaicView::prerasterize]) *)

Module Compositor.
Section Compositor.
Context {F : Type} `{DoubleOps F}.

(** The image library's grassfire transform and its bilinear interpolation
    with constant edge extension ([interp_dem(x, y)]) are parameters. *)
Variable grassfire : Image F -> Z -> Z -> Z.
Variable interp : Image (GrayA F) -> F -> F -> GrayA F.

(** What lines 191-212 hand to the rest of the loop body for one input DEM:
    the cropped DEM, its no-data value, the lower corner of [pix_box],
    whether [pix_box] came out empty, and the map from an output pixel to
    the DEM's pixel coordinates
    ([georef.point_to_pixel(m_out_georef.pixel_to_point(out_pix))]). *)
Record Source := mkSource {
  src_dem : Image F;
  src_nodata : F;
  src_pix_min : F * F;
  src_empty : bool;
  src_to_pixel : Z -> Z -> F * F
}.

(** Lines 212-243: the two-channel image, the second channel holding the
    eroded weights. *)
Definition dem_with_weights (draft_mode : bool) (erode_len : Z)
           (s : Source) : Image (GrayA F) :=
  let dem := src_dem s in
  let wts := Weights.erode (cols dem) (rows dem) erode_len
               (Weights.local_wts grassfire draft_mode (src_nodata s) dem) in
  mkImage (cols dem) (rows dem)
          (fun c r => mkGrayA (px dem c r) (of_int (wts c r))).

(** The test of line 259-261. *)
Definition on_grid (dem : Image (GrayA F)) (x y : F) : bool :=
  let i0 := round_int x in
  let j0 := round_int y in
  dltb (dabs (dsub x (of_int i0))) g_tol &&
  dltb (dabs (dsub y (of_int j0))) g_tol &&
  ((0 <=? i0) && (i0 <=? cols dem - 1) &&
   (0 <=? j0) && (j0 <=? rows dem - 1)).

(** Line 275-276. *)
Definition is_good (dem : Image (GrayA F)) (x y : F) : bool :=
  dleb dzero x && dleb x (of_int (cols dem - 1)) &&
  dleb dzero y && dleb y (of_int (rows dem - 1)).

(** Line 282-283. *)
Definition some_neighbour_nonpositive (dem : Image (GrayA F)) (i j : Z)
  : bool :=
  dleb (pa (px dem i j)) dzero || dleb (pa (px dem (i + 1) j)) dzero ||
  dleb (pa (px dem i (j + 1))) dzero ||
  dleb (pa (px dem (i + 1) (j + 1))) dzero.

(** Lines 258-285: the pixel [pval] sampled at [(x, y)], or [None] where the
    loop body runs [continue]. *)
Definition sample (dem : Image (GrayA F)) (x y : F) : option (GrayA F) :=
  let i0 := round_int x in
  let j0 := round_int y in
  if on_grid dem x y then Some (px dem i0 j0)
  else
    if negb (is_good dem x y) then None
    else
      let i := floor_int x in
      let j := floor_int y in
      if some_neighbour_nonpositive dem i j then None
      else Some (interp dem x y).

(** Lines 250-255: the coordinates of output pixel [(c, r)] of the block
    [bbox] in the cropped DEM. *)
Definition local_coords (bbox : BBox2i) (s : Source) (c r : Z) : F * F :=
  let in_pix := src_to_pixel s (c + bmin_x bbox) (r + bmin_y bbox) in
  (dsub (fst in_pix) (fst (src_pix_min s)),
   dsub (snd in_pix) (snd (src_pix_min s))).

(** The two buffers of a block. *)
Record Buffers := mkBuffers {
  tile : Z -> Z -> F;
  weights : Z -> Z -> F
}.

Definition upd (f : Z -> Z -> F) (c r : Z) (x : F) : Z -> Z -> F :=
  fun c' r' => if (c' =? c) && (r' =? r) then x else f c' r'.

(** Lines 258-289: the pixel that contributes, or [None] where the loop body
    runs [continue]. *)
Definition contribution (dem : Image (GrayA F)) (x y : F)
  : option (GrayA F) :=
  match sample dem x y with
  | None => None
  | Some pval => if dleb (pa pval) dzero then None else Some pval
  end.

(** Lines 291-303 on the pair (tile(c,r), weights(c,r)). *)
Definition blend (draft_mode : bool) (out_nodata : F) (pval : GrayA F)
           (tw : F * F) : F * F :=
  let val := pv pval in
  let wt := pa pval in
  let t := if deqb (fst tw) out_nodata || disnan (fst tw)
           then dzero else fst tw in
  if negb draft_mode
  then (dadd t (dmul wt val), dadd (snd tw) wt)
  else (val, done).

(** The body of the loop over [(c, r)] for one DEM, lines 250-304. *)
Definition pixel_step (draft_mode : bool) (out_nodata : F) (bbox : BBox2i)
           (s : Source) (dem : Image (GrayA F)) (c r : Z) (b : Buffers)
  : Buffers :=
  let xy := local_coords bbox s c r in
  match contribution dem (fst xy) (snd xy) with
  | None => b
  | Some pval =>
      let tw := blend draft_mode out_nodata pval
                      (tile b c r, weights b c r) in
      mkBuffers (upd (tile b) c r (fst tw)) (upd (weights b) c r (snd tw))
  end.

(** [for (c...) for (r...) body]. *)
Definition sweep (body : Z -> Z -> Buffers -> Buffers) (w h : Z)
           (b : Buffers) : Buffers :=
  fold_left (fun b c => fold_left (fun b r => body c r b) (range h) b)
            (range w) b.

(** One iteration of the loop over the DEMs, lines 189-308. *)
Definition source_step (draft_mode : bool) (erode_len : Z) (out_nodata : F)
           (bbox : BBox2i) (b : Buffers) (s : Source) : Buffers :=
  if src_empty s then b
  else
    sweep (pixel_step draft_mode out_nodata bbox s
                      (dem_with_weights draft_mode erode_len s))
          (bwidth bbox) (bheight bbox) b.

(** Lines 184-187. *)
Definition initial_buffers (out_nodata : F) : Buffers :=
  mkBuffers (fun _ _ => out_nodata) (fun _ _ => dzero).

(** The buffers after the loop over the DEMs. *)
Definition accumulated (draft_mode : bool) (erode_len : Z) (out_nodata : F)
           (bbox : BBox2i) (sources : list Source) : Buffers :=
  fold_left (source_step draft_mode erode_len out_nodata bbox) sources
            (initial_buffers out_nodata).

(** Lines 314-317. *)
Definition divide_step (c r : Z) (b : Buffers) : Buffers :=
  if dltb dzero (weights b c r)
  then mkBuffers (upd (tile b) c r (ddiv (tile b c r) (weights b c r)))
                 (weights b)
  else b.

(** [prerasterize(bbox)]: the block's final tile buffer. *)
Definition prerasterize (draft_mode : bool) (erode_len : Z) (out_nodata : F)
           (bbox : BBox2i) (sources : list Source) : Z -> Z -> F :=
  tile (sweep divide_step (bwidth bbox) (bheight bbox)
              (accumulated draft_mode erode_len out_nodata bbox sources)).

(** *** The loops, pixel by pixel *)

(** The pair of buffer entries of a pixel. *)
Definition at_px (b : Buffers) (c r : Z) : F * F :=
  (tile b c r, weights b c r).

(** A loop body that reads and writes only the entries of its own pixel,
    through the function [g]. *)
Definition local_body (body : Z -> Z -> Buffers -> Buffers)
           (g : Z -> Z -> F * F -> F * F) : Prop :=
  forall c r b c' r',
    at_px (body c r b) c' r' =
    if (c' =? c) && (r' =? r) then g c r (at_px b c r) else at_px b c' r'.

(** The pixel function of one DEM. *)
Definition pixel_fun (draft_mode : bool) (out_nodata : F) (bbox : BBox2i)
           (s : Source) (dem : Image (GrayA F)) (c r : Z) (tw : F * F)
  : F * F :=
  let xy := local_coords bbox s c r in
  match contribution dem (fst xy) (snd xy) with
  | None => tw
  | Some pval => blend draft_mode out_nodata pval tw
  end.

(** The pixel function of the division loop. *)
Definition divide_fun (c r : Z) (tw : F * F) : F * F :=
  if dltb dzero (snd tw) then (ddiv (fst tw) (snd tw), snd tw) else tw.

Definition in_block (bbox : BBox2i) (c r : Z) : bool :=
  ((0 <=? c) && (c <? bwidth bbox)) && ((0 <=? r) && (r <? bheight bbox)).

(** The pixel function of one iteration of the loop over the DEMs. *)
Definition source_fun (draft_mode : bool) (erode_len : Z) (out_nodata : F)
           (bbox : BBox2i) (c r : Z) (tw : F * F) (s : Source) : F * F :=
  if src_empty s then tw
  else if in_block bbox c r
       then pixel_fun draft_mode out_nodata bbox s
                      (dem_with_weights draft_mode erode_len s)
                      c r tw
       else tw.

(** A weight entry that some contribution has been added to. *)
Definition touched (w : F) : Prop := dltb dzero w = true \/ disnan w = true.

Definition untouched_or_weighted (out_nodata : F) (tw : F * F) : Prop :=
  tw = (out_nodata, dzero) \/ touched (snd tw).

End Compositor.
End Compositor.

(** ** Longitude adjustment ([lonlat_to_pixel_bbox_with_adjustment]) *)

Module Lonlat.
Section Lonlat.
Context {F : Type} `{DoubleOps F}.

(** [vw::BBox2]: a box with [double] corners. *)
Record BBox2 := mkBBox2 {
  min_x : F; min_y : F;
  max_x : F; max_y : F
}.

(** The two [GeoReference] methods the function calls; they belong to the
    cartography library. *)
Record GeoReference := mkGeoReference {
  pixel_to_lonlat : F * F -> F * F;
  lonlat_to_pixel_bbox : BBox2 -> Z -> BBox2
}.

(** [Vector2 * int]: both coordinates times the converted scalar. *)
Definition vector_times (v : F * F) (k : Z) : F * F :=
  (dmul (fst v) (of_int k), dmul (snd v) (of_int k)).

(** [BBox2 += Vector2]: both corners are moved by the vector. *)
Definition bbox_add (b : BBox2) (v : F * F) : BBox2 :=
  mkBBox2 (dadd (min_x b) (fst v)) (dadd (min_y b) (snd v))
          (dadd (max_x b) (fst v)) (dadd (max_y b) (snd v)).

(** Line 125-126. *)
Definition longitude_shift (georef : GeoReference) (lonlat_box : BBox2) : Z :=
  let cr := pixel_to_lonlat georef (of_int 0, of_int 0) in
  round_int
    (ddiv (dsub (fst cr)
                (ddiv (dadd (min_x lonlat_box) (max_x lonlat_box))
                      (of_int 2)))
          (of_int 360)).

(** Line 127. *)
Definition adjusted_box (georef : GeoReference) (lonlat_box : BBox2) : BBox2 :=
  bbox_add lonlat_box
           (vector_times (of_int 360, of_int 0)
                         (longitude_shift georef lonlat_box)).

Definition lonlat_to_pixel_bbox_with_adjustment
           (georef : GeoReference) (lonlat_box : BBox2) : BBox2 :=
  lonlat_to_pixel_bbox georef (adjusted_box georef lonlat_box) 1000.

End Lonlat.
Arguments BBox2 F : clear implicits.
Arguments GeoReference F : clear implicits.
End Lonlat.

(** ** Driver ([handle_arguments] and [main]) *)

Module Driver.

Inductive Err :=
| ArgumentErr (msg : string)
| IOErr (msg : string).

Definition err_message (e : Err) : string :=
  match e with ArgumentErr m => m | IOErr m => m end.

Inductive Result (A : Type) :=
| Ok (a : A)
| Throw (e : Err).
Arguments Ok {A}.
Arguments Throw {A}.

(** Decimal output of an [int] ([os << n]). *)
Definition show (n : Z) : string := NilZero.string_of_int (Z.to_int n).

Definition is_empty {A} (l : list A) : bool :=
  match l with [] => true | _ => false end.

Section Driver.
Context {F : Type} `{DoubleOps F}.

(** What a run does to the outside world, in order. *)
Inductive Event :=
| EvPrint (text : string)                     (* vw_out() << text *)
| EvPrintValue (text : string) (v : F)        (* vw_out() << text << double *)
| EvReadListFile (file : string)              (* ifstream is(dem_list_file) *)
| EvCreateOutDir (prefix : string)            (* asp::create_out_dir *)
| EvLogToFile (prefix : string)               (* asp::log_to_file *)
| EvOpenRaster (file : string)                (* DiskImageResourceGDAL(file) *)
| EvReadGeoref (file : string)                (* read_georeference(geo, file) *)
| EvReadSources (files : list string)         (* the loop of lines 534-573 *)
| EvWriteTile (file : string) (box : BBox2i). (* block_write_gdal_image *)

(** Events that open, read or write a raster file. *)
Definition is_raster_io (ev : Event) : bool :=
  match ev with
  | EvOpenRaster _ | EvReadGeoref _ | EvReadSources _ | EvWriteTile _ _ => true
  | _ => false
  end.

Definition is_write (ev : Event) : bool :=
  match ev with EvWriteTile _ _ => true | _ => false end.

(** Computations that log events and may throw. *)
Definition M (A : Type) : Type := (list Event * Result A)%type.

Definition ret {A} (a : A) : M A := ([], Ok a).

Definition bind {A B} (m : M A) (k : A -> M B) : M B :=
  match m with
  | (t, Ok a) => let (t', r) := k a in (t ++ t', r)
  | (t, Throw e) => (t, Throw e)
  end.

Definition emit (ev : Event) : M unit := ([ev], Ok tt).
Definition vw_throw {A} (e : Err) : M A := ([], Throw e).
Definition lift {A} (r : Result A) : M A := ([], r).

(** [if (cond) vw_throw(ArgumentErr() << msg);] *)
Definition throw_if (cond : bool) (msg : string) : M unit :=
  if cond then vw_throw (ArgumentErr msg) else ret tt.

Fixpoint for_each {A} (l : list A) (body : A -> M unit) : M unit :=
  match l with
  | [] => ret tt
  | x :: l' => bind (body x) (fun _ => for_each l' body)
  end.

Notation "x <- m ;; k" := (bind m (fun x => k))
  (at level 61, m at next level, right associativity).
Notation "m ;; k" := (bind m (fun _ => k))
  (at level 61, right associativity).

(** [struct Options]. *)
Record Options := mkOptions {
  draft_mode : bool;
  dem_list_file : string;
  out_prefix : string;
  target_srs_string : string;
  dem_files : list string;
  mpp : F;
  tr : F;
  geo_tile_size : F;
  has_out_nodata : bool;
  out_nodata_value : F;
  tile_size : Z;
  tile_index : Z;
  erode_len : Z;
  blending_len : Z;
  num_threads : Z                             (* asp::BaseOptions *)
}.

Definition with_dem_files (o : Options) (l : list string) : Options :=
  mkOptions (draft_mode o) (dem_list_file o) (out_prefix o)
            (target_srs_string o) l (mpp o) (tr o) (geo_tile_size o)
            (has_out_nodata o) (out_nodata_value o) (tile_size o)
            (tile_index o) (erode_len o) (blending_len o) (num_threads o).

Definition with_target_srs (o : Options) (srs : string) : Options :=
  mkOptions (draft_mode o) (dem_list_file o) (out_prefix o)
            srs (dem_files o) (mpp o) (tr o) (geo_tile_size o)
            (has_out_nodata o) (out_nodata_value o) (tile_size o)
            (tile_index o) (erode_len o) (blending_len o) (num_threads o).

Definition with_out_nodata (o : Options) (has : bool) (v : F) : Options :=
  mkOptions (draft_mode o) (dem_list_file o) (out_prefix o)
            (target_srs_string o) (dem_files o) (mpp o) (tr o)
            (geo_tile_size o) has v (tile_size o)
            (tile_index o) (erode_len o) (blending_len o) (num_threads o).

Definition with_tile_size (o : Options) (n : Z) : Options :=
  mkOptions (draft_mode o) (dem_list_file o) (out_prefix o)
            (target_srs_string o) (dem_files o) (mpp o) (tr o)
            (geo_tile_size o) (has_out_nodata o) (out_nodata_value o) n
            (tile_index o) (erode_len o) (blending_len o) (num_threads o).

(** The outside world of a run. *)
Record FileInfo := mkFileInfo {
  fi_nodata : option F;          (* has_nodata_read / nodata_read *)
  fi_proj4 : option string;      (* proj4_str of the georeference, if any *)
  fi_spacing : F                 (* transform()(0, 0) of the georeference *)
}.

Variable neg_max_double : F.                  (* -numeric_limits<double>::max() *)
Variable list_file_words : string -> list string.   (* words of a list file *)
Variable disk : string -> option FileInfo.    (* the raster files on disk *)
Variable processed_proj4 : string -> string.  (* normalised PROJ.4 string *)
(** Lines 523-594: reading all DEMs and measuring the mosaic; this is the
    image and cartography libraries' work and is taken as given. *)
Variable mosaic_size : Options -> Result (Z * Z).

(** [handle_arguments], lines 399-466, on the options as the command-line
    parser left them; [unregistered] are the positional arguments and
    [nodata_given] is [vm.count("output-nodata-value")]. *)
Definition handle_arguments (opt : Options) (unregistered : list string)
           (nodata_given : bool) : M Options :=
  throw_if (dltb dzero (mpp opt) && dltb dzero (tr opt))
    "Just one of the --mpp and --tr options needs to be set." ;;
  throw_if (out_prefix opt =? "")%string
    "No output prefix was specified." ;;
  throw_if (num_threads opt =? 0)
    "The number of threads must be set and positive." ;;
  throw_if (erode_len opt <? 0)
    "The erode length must not be negative." ;;
  throw_if (blending_len opt <? 0)
    "The blending length must not be negative." ;;
  throw_if (tile_size opt <=? 0)
    "The size of a tile in pixels must be set and positive." ;;
  throw_if (draft_mode opt && (erode_len opt >? 0))
    "Cannot erode pixels in draft mode." ;;
  throw_if (dltb (geo_tile_size opt) dzero)
    "The size of a tile in georeferenced units must not be negative." ;;
  opt <- (if negb (dem_list_file opt =? "")%string then
            throw_if (negb (is_empty unregistered))
              "The DEMs were specified via a list. There were however extraneous files or options passed in." ;;
            emit (EvReadListFile (dem_list_file opt)) ;;
            let files := dem_files opt ++ list_file_words (dem_list_file opt) in
            throw_if (is_empty files) "No DEM files to mosaic." ;;
            ret (with_dem_files opt files)
          else
            throw_if (is_empty unregistered)
              "No input DEMs were specified.." ;;
            ret (with_dem_files opt unregistered)) ;;
  emit (EvCreateOutDir (out_prefix opt)) ;;
  emit (EvLogToFile (out_prefix opt)) ;;
  ret (if negb nodata_given
       then with_out_nodata opt false neg_max_double
       else with_out_nodata opt true (out_nodata_value opt)).

(** [DiskImageResourceGDAL in_rsrc(file)] *)
Definition open_raster (file : string) : M FileInfo :=
  emit (EvOpenRaster file) ;;
  match disk file with
  | Some info => ret info
  | None => vw_throw (IOErr ("Cannot open " ++ file))
  end.

(** [read_georef(file)], lines 132-139: projection string and spacing. *)
Definition read_georef (file : string) : M (string * F) :=
  emit (EvReadGeoref file) ;;
  match disk file with
  | Some info =>
      match fi_proj4 info with
      | Some p => ret (p, fi_spacing info)
      | None => vw_throw (ArgumentErr ("No georeference found in " ++ file ++ "."))
      end
  | None => vw_throw (IOErr ("Cannot open " ++ file))
  end.

(** Lines 474-497. *)
Definition main_open (opt0 : Options) (unregistered : list string)
           (nodata_given : bool) : M (Options * F) :=
  opt <- handle_arguments opt0 unregistered nodata_given ;;
  let first := hd ""%string (dem_files opt) in
  opt <- (if negb (has_out_nodata opt) then
            in_rsrc <- open_raster first ;;
            ret (match fi_nodata in_rsrc with
                 | Some v => with_out_nodata opt (has_out_nodata opt) v
                 | None => opt
                 end)
          else ret opt) ;;
  emit (EvPrintValue "Using output no-data value: " (out_nodata_value opt)) ;;
  let opt := if negb (target_srs_string opt =? "")%string
             then with_target_srs opt (processed_proj4 (target_srs_string opt))
             else opt in
  out_georef <- read_georef first ;;
  let spacing := tr opt in
  throw_if (negb (target_srs_string opt =? "")%string &&
            negb (target_srs_string opt =? fst out_georef)%string &&
            dleb spacing dzero)
    "Changing the projection was requested. The output DEM resolution must be specified via the --tr option." ;;
  ret (opt, if dltb dzero spacing then spacing else snd out_georef).

(** Lines 517-594. *)
Definition main_measure (os : Options * F) : M (Options * (Z * Z)) :=
  let (opt, spacing) := os in
  opt <- (if dltb dzero (geo_tile_size opt) then
            let n := round_int (ddiv (geo_tile_size opt) spacing) in
            emit (EvPrint ("Tile size in pixels: " ++ show n)) ;;
            ret (with_tile_size opt n)
          else ret opt) ;;
  let opt := with_tile_size opt (Z.max (tile_size opt) 1) in
  emit (EvPrint "Reading the input DEMs.") ;;
  emit (EvReadSources (dem_files opt)) ;;
  size <- lift (mosaic_size opt) ;;
  ret (opt, size).

Definition tile_name (prefix : string) (tile_id : Z) : string :=
  (prefix ++ "-tile-" ++ show tile_id ++ ".tif")%string.

(** The body of the loop over the tiles, lines 631-657. *)
Definition write_tile (opt : Options) (ncols nrows nty tile_id : Z) : M unit :=
  let tile_box :=
    Tiles.cropped_tile_box tile_id nty (tile_size opt) ncols nrows in
  let dem_tile := tile_name (out_prefix opt) tile_id in
  if (bwidth tile_box =? 0) || (bheight tile_box =? 0)
  then emit (EvPrint ("Skip writing empty image: " ++ dem_tile))
  else
    emit (EvPrint ("Writing: " ++ dem_tile)) ;;
    emit (EvWriteTile dem_tile tile_box).

Definition out_of_bounds_message (tile_index : Z) : string :=
  ("Tile with index: " ++ show tile_index ++ " is out of bounds.")%string.

(** The tile ids the loop of line 629 goes through, lines 622-629. *)
Definition selected_tiles (tile_index num_tiles : Z) : list Z :=
  let start_tile := if tile_index <? 0 then 0 else tile_index in
  let end_tile := if tile_index <? 0 then num_tiles else tile_index + 1 in
  Tiles.tile_ids start_tile end_tile.

Definition size_message (ncols nrows : Z) : string :=
  ("The size of the mosaic is " ++ show ncols ++ " x " ++ show nrows ++
   " pixels.")%string.

Definition count_message (ntx nty : Z) : string :=
  ("Number of tiles: " ++ show ntx ++ " x " ++ show nty ++ " = " ++
   show (ntx * nty))%string.

(** Lines 596-658 and the [return 0] of line 662. *)
Definition main_tiles (oc : Options * (Z * Z)) : M Z :=
  let (opt, size) := oc in
  let (ncols, nrows) := size in
  emit (EvPrint (size_message ncols nrows)) ;;
  let ntx := Tiles.num_tiles_x ncols (tile_size opt) in
  let nty := Tiles.num_tiles_y nrows (tile_size opt) in
  let num_tiles := ntx * nty in
  emit (EvPrint (count_message ntx nty)) ;;
  if tile_index opt >=? num_tiles then
    emit (EvPrint (out_of_bounds_message (tile_index opt))) ;;
    ret 0
  else
    for_each (selected_tiles (tile_index opt) num_tiles)
             (write_tile opt ncols nrows nty) ;;
    ret 0.

(** Modelled from the spec: the macro [ASP_STANDARD_CATCHES] that closes
    [main]'s [try] block is defined in [asp/Core/Macros.h], which is not
    among the sources; "all fatal conditions propagate to a single top-level
    handler that reports the message and a non-zero exit status". *)
Definition fatal_exit_status : Z := 1.

Definition standard_catches (m : M Z) : list Event * Z :=
  match m with
  | (t, Ok code) => (t, code)
  | (t, Throw e) => (t ++ [EvPrint (err_message e)], fatal_exit_status)
  end.

(** [main]: trace and exit code. *)
Definition main (opt0 : Options) (unregistered : list string)
           (nodata_given : bool) : list Event * Z :=
  standard_catches
    (os <- main_open opt0 unregistered nodata_given ;;
     oc <- main_measure os ;;
     main_tiles oc).

(** *** The configuration errors *)

(** The checks of lines 400-425. *)
Definition invalid_arguments (opt : Options) : bool :=
  (dltb dzero (mpp opt) && dltb dzero (tr opt)) ||
  (out_prefix opt =? "")%string ||
  (num_threads opt =? 0) ||
  (erode_len opt <? 0) ||
  (blending_len opt <? 0) ||
  (tile_size opt <=? 0) ||
  (draft_mode opt && (erode_len opt >? 0)) ||
  dltb (geo_tile_size opt) dzero.

(** No input DEM comes out of the list file or the command line. *)
Definition no_input_dems (opt : Options) (unregistered : list string) : bool :=
  if negb (dem_list_file opt =? "")%string
  then is_empty (dem_files opt ++ list_file_words (dem_list_file opt))
  else is_empty unregistered.

(** The check of lines 491-493, [first_proj4] being the projection string of
    the first DEM. *)
Definition projection_change_without_resolution (opt : Options)
           (first_proj4 : string) : bool :=
  let target := if negb (target_srs_string opt =? "")%string
                then processed_proj4 (target_srs_string opt)
                else target_srs_string opt in
  negb (target =? "")%string && negb (target =? first_proj4)%string &&
  dleb (tr opt) dzero.

(** The arguments pass [handle_arguments], the first DEM has a
    georeference, and the requested projection differs from it while no
    resolution is given. *)
Definition projection_error (opt0 : Options) (unregistered : list string)
           (nodata_given : bool) (t0 : list Event) (opt : Options)
           (info : FileInfo) : Prop :=
  handle_arguments opt0 unregistered nodata_given = (t0, Ok opt) /\
  disk (hd ""%string (dem_files opt)) = Some info /\
  exists p, fi_proj4 info = Some p /\
            projection_change_without_resolution opt p = true.

Definition no_raster_io (t : list Event) : bool :=
  forallb (fun ev => negb (is_raster_io ev)) t.

Definition no_write (t : list Event) : bool :=
  forallb (fun ev => negb (is_write ev)) t.

End Driver.

Arguments Event F : clear implicits.
Arguments Options F : clear implicits.
Arguments FileInfo F : clear implicits.
End Driver.

(** ** The image library's transforms, as the specification describes them *)

Module Library.
Section Library.
Context {F : Type} `{DoubleOps F}.

Definition mask_valid (mask : Image F) (c r : Z) : bool :=
  negb (deqb (px mask c r) dzero).

Definition edge_distance (mask : Image F) (c r : Z) : Z :=
  Z.min (Z.min (c + 1) (r + 1)) (Z.min (cols mask - c) (rows mask - r)).

(** Modelled from the spec: the grassfire transform of the image library,
    "each valid pixel's weight equals its city-block/chessboard distance to
    the nearest invalid pixel or mask edge"; a pixel is valid where the mask
    is not zero, and invalid pixels get weight zero. *)
Definition grassfire (mask : Image F) (c r : Z) : Z :=
  if mask_valid mask c r then
    fold_left
      (fun d p =>
         if mask_valid mask (fst p) (snd p) then d
         else Z.min d (Z.abs (c - fst p) + Z.abs (r - snd p)))
      (pixel_list (cols mask) (rows mask))
      (edge_distance mask c r)
  else 0.

(** What the compositor needs of a grassfire transform: an invalid pixel
    (mask zero) gets distance zero. *)
Definition zero_outside (gf : Image F -> Z -> Z -> Z) : Prop :=
  forall mask c r,
    in_image mask c r = true -> deqb (px mask c r) dzero = true ->
    gf mask c r = 0.

Definition clamp_index (n i : Z) : Z := Z.max 0 (Z.min (n - 1) i).

Definition edge_extend {A} (im : Image A) (c r : Z) : A :=
  px im (clamp_index (cols im) c) (clamp_index (rows im) r).

(** Modelled from the spec: the interpolation of the image library, "a
    bilinear-interpolatable view of this buffer with constant-edge extension
    beyond its bounds", on both channels. *)
Definition bilinear (im : Image (GrayA F)) (x y : F) : GrayA F :=
  let i := floor_int x in
  let j := floor_int y in
  let fx := dsub x (of_int i) in
  let fy := dsub y (of_int j) in
  let s0 := dmul (dsub done fx) (dsub done fy) in
  let s1 := dmul fx (dsub done fy) in
  let s2 := dmul (dsub done fx) fy in
  let s3 := dmul fx fy in
  let mix (ch : GrayA F -> F) :=
    dadd (dadd (dadd (dmul (ch (edge_extend im i j)) s0)
                     (dmul (ch (edge_extend im (i + 1) j)) s1))
               (dmul (ch (edge_extend im i (j + 1))) s2))
         (dmul (ch (edge_extend im (i + 1) (j + 1))) s3) in
  mkGrayA (mix pv) (mix pa).

End Library.
End Library.

(** ** IEEE-754 binary64 *)

Module Binary64.

Definition prec : Z := 53.
Definition emax : Z := 1024.

(** Conversion of an integer to the nearest double. *)
Definition of_Z (z : Z) : spec_float := binary_normalize prec emax z 0 false.

Definition is_nan (x : spec_float) : bool :=
  match x with S754_nan => true | _ => false end.

(** [round] of the C library on the magnitude [m * 2^e]: the nearest
    integer, halfway cases away from zero. *)
Definition round_magnitude (m : positive) (e : Z) : Z :=
  if 0 <=? e then Zpos m * 2 ^ e
  else
    let d := 2 ^ (- e) in
    let q := Zpos m / d in
    if d <=? 2 * (Zpos m mod d) then q + 1 else q.

Definition SFround (x : spec_float) : option Z :=
  match x with
  | S754_zero _ => Some 0
  | S754_finite s m e => Some (cond_Zopp s (round_magnitude m e))
  | _ => None
  end.

(** [floor] of the C library. *)
Definition SFfloor (x : spec_float) : option Z :=
  match x with
  | S754_zero _ => Some 0
  | S754_finite s m e =>
      if 0 <=? e then Some (cond_Zopp s (Zpos m * 2 ^ e))
      else Some (cond_Zopp s (Zpos m) / 2 ^ (- e))
  | _ => None
  end.

#[global] Instance ops : DoubleOps spec_float := {
  of_int := of_Z;
  dadd := SFadd prec emax;
  dsub := SFsub prec emax;
  dmul := SFmul prec emax;
  ddiv := SFdiv prec emax;
  dabs := SFabs;
  dltb := SFltb;
  dleb := SFleb;
  deqb := SFeqb;
  disnan := is_nan;
  round_int := fun x => to_int (SFround x);
  floor_int := fun x => to_int (SFfloor x)
}.

(** The double [num / 2^k] for exactly representable operands. *)
Definition dyadic (num : Z) (k : Z) : spec_float :=
  SFdiv prec emax (of_Z num) (of_Z (2 ^ k)).

End Binary64.

(** ** Exact rational arithmetic *)

Module Exact.

Definition Qround_half_away (q : Q) : Z :=
  if Qle_bool 0 q then Qfloor (q + (1 # 2))%Q
  else - Qfloor (- q + (1 # 2))%Q.

#[global] Instance ops : DoubleOps Q := {
  of_int := inject_Z;
  dadd := Qplus;
  dsub := Qminus;
  dmul := Qmult;
  ddiv := Qdiv;
  dabs := Qabs;
  dltb := fun x y => negb (Qle_bool y x);
  dleb := Qle_bool;
  deqb := Qeq_bool;
  disnan := fun _ => false;
  round_int := fun x => to_int (Some (Qround_half_away x));
  floor_int := fun x => to_int (Some (Qfloor x))
}.

End Exact.

(** ** Concrete blocks and DEMs *)

Module Scenarios.
Section Scenarios.
Context {F : Type} `{DoubleOps F}.

Definition const_image (nc nr : Z) (v : F) : Image F :=
  mkImage nc nr (fun _ _ => v).

(** A DEM on the output grid. *)
Definition aligned_source (dem : Image F) (nodata : F) : Compositor.Source :=
  Compositor.mkSource dem nodata (of_int 0, of_int 0) false
    (fun c r => (of_int c, of_int r)).

(** "The coordinate lies strictly within the cropped source's fractional
    extent", read as strict inequalities. *)
Definition strictly_within (dem : Image (GrayA F)) (x y : F) : bool :=
  dltb dzero x && dltb x (of_int (cols dem - 1)) &&
  dltb dzero y && dltb y (of_int (rows dem - 1)).

(** The block of the single output pixel (0, 0). *)
Definition unit_block : BBox2i := BBox2i_xywh 0 0 1 1.

(** The cropped two-channel DEM and the block result with the library
    transforms as the specification describes them. *)
Definition lib_dem_with_weights :=
  Compositor.dem_with_weights Library.grassfire.
Definition lib_contribution := Compositor.contribution Library.bilinear.
Definition lib_accumulated :=
  Compositor.accumulated Library.grassfire Library.bilinear.
Definition lib_prerasterize :=
  Compositor.prerasterize Library.grassfire Library.bilinear.

End Scenarios.

(** A 2 x 2 DEM of height 7 everywhere, no-data value -1, blended mode, no
    erosion: all four weights are 1. *)
Definition flat_dem : Image (GrayA spec_float) :=
  lib_dem_with_weights false 0
    (aligned_source (const_image 2 2 (Binary64.of_Z 7)) (Binary64.of_Z (-1))).

(** A DEM of one pixel whose value is NaN, on the output grid, no-data
    value -1. *)
Definition nan_source : Compositor.Source :=
  aligned_source (const_image 1 1 S754_nan) (Binary64.of_Z (-1)).

(** *** Runs of the driver, in exact arithmetic *)

(** Blended mode, prefix "out", one thread, the default tile size, erosion
    and blending lengths, no tile index, no resolution, no projection. *)
Definition base_options : Driver.Options Q :=
  Driver.mkOptions false "" "out" "" [] 0%Q 0%Q 0%Q false 0%Q
                   1000000 (-1) 0 200 1.

(** A disk with the single DEM "a.tif", in projection "+proj=a", with
    spacing 1 and no no-data value. *)
Definition one_dem_disk (file : string) : option (Driver.FileInfo Q) :=
  if (file =? "a.tif")%string
  then Some (Driver.mkFileInfo None (Some "+proj=a"%string) 1%Q)
  else None.

(** A mosaic of 2 x 1 pixels. *)
Definition two_by_one (opt : Driver.Options Q) : Driver.Result (Z * Z) :=
  Driver.Ok (2, 1).

(** The base options with a target projection, a tile size of one pixel, a
    tile index, or without the output prefix. *)
Definition reproject_options : Driver.Options Q :=
  Driver.with_target_srs base_options "+proj=b".

Definition one_pixel_tiles : Driver.Options Q :=
  Driver.with_tile_size base_options 1.

Definition with_tile_index (opt : Driver.Options Q) (i : Z)
  : Driver.Options Q :=
  Driver.mkOptions (Driver.draft_mode opt) (Driver.dem_list_file opt)
    (Driver.out_prefix opt) (Driver.target_srs_string opt)
    (Driver.dem_files opt) (Driver.mpp opt) (Driver.tr opt)
    (Driver.geo_tile_size opt) (Driver.has_out_nodata opt)
    (Driver.out_nodata_value opt) (Driver.tile_size opt) i
    (Driver.erode_len opt) (Driver.blending_len opt)
    (Driver.num_threads opt).

Definition no_prefix_options : Driver.Options Q :=
  Driver.mkOptions false "" "" "" [] 0%Q 0%Q 0%Q false 0%Q
                   1000000 (-1) 0 200 1.

(** A run of [main] on that disk with "a.tif" as the only positional
    argument and no [--output-nodata-value]; -1 stands for the lowest
    double, the projection strings are already normalised, and no list file
    has any word. *)
Definition run (opt : Driver.Options Q) : list (Driver.Event Q) * Z :=
  Driver.main (-1)%Q (fun _ => []) one_dem_disk (fun srs => srs) two_by_one
              opt ["a.tif"%string] false.

End Scenarios.

(** ** What [handle_arguments] and the opening of [main] come to *)

Module DriverViews.
Import Driver.
Section DriverViews.
Context {F : Type} `{DoubleOps F}.
Variable neg_max_double : F.
Variable list_file_words : string -> list string.

(** No check of lines 400-451 fires. *)
Definition arguments_accepted (opt : Options F) (unregistered : list string)
  : bool :=
  negb (invalid_arguments opt) &&
  negb (no_input_dems list_file_words opt unregistered) &&
  ((dem_list_file opt =? "")%string || is_empty unregistered).

(** The DEM files after lines 428-451. *)
Definition accepted_files (opt : Options F) (unregistered : list string)
  : list string :=
  if negb (dem_list_file opt =? "")%string
  then dem_files opt ++ list_file_words (dem_list_file opt)
  else unregistered.

(** The options at the end of [handle_arguments]. *)
Definition accepted_options (opt : Options F) (unregistered : list string)
           (nodata_given : bool) : Options F :=
  let opt1 := with_dem_files opt (accepted_files opt unregistered) in
  if negb nodata_given
  then with_out_nodata opt1 false neg_max_double
  else with_out_nodata opt1 true (out_nodata_value opt1).

(** What [handle_arguments] does when it accepts. *)
Definition accepted_trace (opt : Options F) : list (Event F) :=
  (if negb (dem_list_file opt =? "")%string
   then [EvReadListFile (dem_list_file opt)] else []) ++
  [EvCreateOutDir (out_prefix opt); EvLogToFile (out_prefix opt)].

Definition touches_output (ev : Event F) : bool :=
  match ev with
  | EvCreateOutDir _ | EvLogToFile _ | EvWriteTile _ _ => true
  | _ => false
  end.

(** The output no-data value of lines 459-465 and 477-480. *)
Definition resolved_nodata (nodata_given : bool) (user_value : F)
           (first_dem : FileInfo F) : F :=
  if nodata_given then user_value
  else match fi_nodata first_dem with
       | Some v => v
       | None => neg_max_double
       end.

(** The spacing of lines 490 and 508-515. *)
Definition resolved_spacing (opt : Options F) (first_dem : FileInfo F) : F :=
  if dltb dzero (tr opt) then tr opt else fi_spacing first_dem.

Variable processed_proj4 : string -> string.

(** The options after lines 477-480, [first_dem] being the first DEM. *)
Definition options_with_nodata (opt : Options F) (first_dem : FileInfo F)
  : Options F :=
  if negb (has_out_nodata opt)
  then match fi_nodata first_dem with
       | Some v => with_out_nodata opt (has_out_nodata opt) v
       | None => opt
       end
  else opt.

(** The options after lines 486-487. *)
Definition options_with_target (opt : Options F) : Options F :=
  if negb (target_srs_string opt =? "")%string
  then with_target_srs opt (processed_proj4 (target_srs_string opt))
  else opt.

(** What lines 477-489 do. *)
Definition opening_trace (opt : Options F) (first_dem : FileInfo F)
  : list (Event F) :=
  let first := hd ""%string (dem_files opt) in
  (if negb (has_out_nodata opt) then [EvOpenRaster first] else []) ++
  [EvPrintValue "Using output no-data value: "
                (out_nodata_value (options_with_nodata opt first_dem));
   EvReadGeoref first].

Definition projection_message : string :=
  "Changing the projection was requested. The output DEM resolution must be specified via the --tr option.".

Definition no_georeference_message (file : string) : string :=
  ("No georeference found in " ++ file ++ ".")%string.

End DriverViews.
End DriverViews.

(** ** What the DEMs give to one output pixel *)

Module CompositorViews.
Import Compositor.
Section CompositorViews.
Context {F : Type} `{DoubleOps F}.
Variable grassfire : Image F -> Z -> Z -> Z.
Variable interp : Image (GrayA F) -> F -> F -> GrayA F.

(** The pixel one DEM contributes to the output pixel [(c, r)] of the block,
    if any: none when its [pix_box] is empty (line 208) or the loop body
    runs [continue]. *)
Definition pixel_contribution (draft_mode : bool) (erode_len : Z)
           (bbox : BBox2i) (c r : Z) (s : Source) : option (GrayA F) :=
  if src_empty s then None
  else
    let xy := local_coords bbox s c r in
    contribution interp (dem_with_weights grassfire draft_mode erode_len s)
                 (fst xy) (snd xy).

(** The contributions to an output pixel, in the order of the DEMs. *)
Definition contributions (draft_mode : bool) (erode_len : Z)
           (bbox : BBox2i) (c r : Z) (sources : list Source)
  : list (GrayA F) :=
  flat_map (fun s =>
              match pixel_contribution draft_mode erode_len bbox c r s with
              | Some pval => [pval]
              | None => []
              end) sources.

(** Line 292-293: the running sum a contribution is added to. *)
Definition restart (out_nodata t : F) : F :=
  if deqb t out_nodata || disnan t then dzero else t.

(** Lines 292-297 over the contributions of a pixel, in blended mode: the
    entry of the tile buffer, which holds [start] before them. *)
Definition running_sum_from (out_nodata start : F)
           (contribs : list (GrayA F)) : F :=
  fold_left (fun t pval => dadd (restart out_nodata t)
                                (dmul (pa pval) (pv pval)))
            contribs start.

(** The tile buffer starts from the output no-data value (line 184). *)
Definition running_sum (out_nodata : F) (contribs : list (GrayA F)) : F :=
  running_sum_from out_nodata out_nodata contribs.

(** Line 298 over the contributions: the entry of the weight buffer. *)
Definition weight_sum (contribs : list (GrayA F)) : F :=
  fold_left dadd (map pa contribs) dzero.

(** The sum of weight times value, from 0. *)
Definition weighted_sum (contribs : list (GrayA F)) : F :=
  fold_left (fun t pval => dadd t (dmul (pa pval) (pv pval))) contribs dzero.

(** Every pixel of the DEM is the no-data value. *)
Definition all_nodata (s : Source) : Prop :=
  forall c r, in_image (src_dem s) c r = true ->
              deqb (px (src_dem s) c r) (src_nodata s) = true.

End CompositorViews.
End CompositorViews.

(** ** More DEMs, disks and options *)

Module MoreScenarios.
Import Scenarios.

(** Two 3 x 3 DEMs of heights 5 and 7 on the output grid, with no-data
    value -1, in exact arithmetic, and the block of their centre pixel. *)
Definition five : Compositor.Source :=
  aligned_source (const_image 3 3 5%Q) (-1)%Q.
Definition seven : Compositor.Source :=
  aligned_source (const_image 3 3 7%Q) (-1)%Q.
Definition centre_block : BBox2i := BBox2i_xywh 1 1 1 1.

(** A 3 x 3 DEM without data. *)
Definition void : Compositor.Source :=
  aligned_source (const_image 3 3 (-1)%Q) (-1)%Q.

(** The disk of [one_dem_disk] with the no-data value -32768 in "a.tif". *)
Definition nodata_disk (file : string) : option (Driver.FileInfo Q) :=
  if (file =? "a.tif")%string
  then Some (Driver.mkFileInfo (Some (-32768)%Q) (Some "+proj=a"%string) 1%Q)
  else None.

(** The disk of [one_dem_disk] with no georeference in "a.tif". *)
Definition bare_disk (file : string) : option (Driver.FileInfo Q) :=
  if (file =? "a.tif")%string
  then Some (Driver.mkFileInfo None None 1%Q)
  else None.

(** The base options with [--georef-tile-size 0.25]. *)
Definition quarter_unit_tiles : Driver.Options Q :=
  Driver.mkOptions false "" "out" "" [] 0%Q 0%Q (1 # 4)%Q false 0%Q
                   1000000 (-1) 0 200 1.

(** A georeference whose pixel (0, 0) lies at longitude 370, and a box of
    longitudes 0 to 20. *)
Definition far_georef : Lonlat.GeoReference Q :=
  Lonlat.mkGeoReference (fun _ => (370, 0)%Q) (fun box _ => box).
Definition near_box : Lonlat.BBox2 Q := Lonlat.mkBBox2 0%Q 0%Q 20%Q 10%Q.

End MoreScenarios.

(** ** Theorems on the tile partition *)

Module TilesFacts.
Import Tiles.

Lemma ceil_div_spec (a b : Z) :
  0 < b -> b * (ceil_div a b - 1) < a <= b * ceil_div a b.
Proof.
  intros Hb. unfold ceil_div.
  pose proof (Z.div_mod (- a) b ltac:(lia)) as Hdm.
  pose proof (Z.mod_pos_bound (- a) b Hb) as Hm.
  nia.
Qed.

Lemma num_tiles_axis_pos (dim ts : Z) : 1 <= num_tiles_axis dim ts.
Proof.
  unfold num_tiles_axis. destruct (Z.leb_spec (ceil_div dim ts) 0); lia.
Qed.

(** The tile count per axis is the ceiling of dim/tile_size, and at least 1. *)
Lemma num_tiles_axis_ceil (dim ts : Z) :
  0 < ts -> 0 < dim ->
  ts * (num_tiles_axis dim ts - 1) < dim <= ts * num_tiles_axis dim ts.
Proof.
  intros Hts Hdim. unfold num_tiles_axis.
  pose proof (ceil_div_spec dim ts Hts) as Hc.
  destruct (Z.leb_spec (ceil_div dim ts) 0); nia.
Qed.

(** Over tile ids [0 .. ntx*nty-1] the x index ranges over the number of
    tiles in y, and the y index over the number of tiles in x. *)
Lemma tile_index_ranges (id ntx nty : Z) :
  1 <= nty -> 0 <= id < ntx * nty ->
  0 <= tile_index_x id nty < nty /\ 0 <= tile_index_y id nty < ntx.
Proof.
  intros Hn Hid. unfold tile_index_x, tile_index_y.
  rewrite Z.quot_div_nonneg by lia.
  pose proof (Z.div_mod id nty ltac:(lia)) as Hdm.
  pose proof (Z.mod_pos_bound id nty ltac:(lia)) as Hm.
  split; [nia|]. split; [apply Z.div_pos; lia|].
  apply Z.div_lt_upper_bound; lia.
Qed.

(** C1, evaluated on a mosaic of 2 x 1 pixels with tile size 1: the driver
    counts 2 x 1 = 2 tiles, but the tile-id mapping yields the index pairs
    (0,0) and (0,1); the pair (1,0) is never produced, tile 1 lies outside
    the mosaic (its cropped box is empty), and the mosaic pixel (1,0) is in
    no tile box. *)
Theorem tile_mapping_misses_pixels :
  num_tiles_x 2 1 = 2 /\ num_tiles_y 1 1 = 1 /\ num_tiles 2 1 1 = 2 /\
  all_tile_indices 2 1 1 = [(0, 0); (0, 1)] /\
  ~ In (1, 0) (all_tile_indices 2 1 1) /\
  bcontains (mosaic_box 2 1) 1 0 = true /\
  covered (all_tile_boxes 2 1 1) 1 0 = false /\
  bheight (cropped_tile_box 1 (num_tiles_y 1 1) 1 2 1) = 0.
Proof.
  repeat split; try reflexivity.
  vm_compute. intros [H | [H | []]]; discriminate H.
Qed.

End TilesFacts.


(** ** Index ranges and pixel lists *)

Module RangeFacts.

Lemma range_In (n k : Z) : In k (range n) <-> 0 <= k < n.
Proof.
  unfold range. rewrite in_map_iff. split.
  - intros [x [Hx Hin]]. apply in_seq in Hin. lia.
  - intros Hk. exists (Z.to_nat k). split; [lia|]. apply in_seq. lia.
Qed.

Lemma range_NoDup (n : Z) : NoDup (range n).
Proof.
  unfold range. apply Finite.Injective_map_NoDup.
  - intros x y Hxy. lia.
  - apply seq_NoDup.
Qed.

Lemma pixel_list_In (nc nr c r : Z) :
  In (c, r) (pixel_list nc nr) <-> (0 <= c < nc /\ 0 <= r < nr).
Proof.
  unfold pixel_list. rewrite in_flat_map. split.
  - intros [x [Hx Hin]]. apply in_map_iff in Hin.
    destruct Hin as [y [Hy Hin]]. inversion Hy; subst.
    apply range_In in Hx. apply range_In in Hin. lia.
  - intros [Hc Hr]. exists c. split; [apply range_In; lia|].
    apply in_map_iff. exists r. split; [reflexivity|apply range_In; lia].
Qed.

Lemma tile_ids_In (start stop id : Z) :
  In id (Tiles.tile_ids start stop) <-> start <= id < stop.
Proof.
  unfold Tiles.tile_ids. rewrite in_map_iff. split.
  - intros [k [Hk Hin]]. apply in_seq in Hin. lia.
  - intros Hid. exists (Z.to_nat (id - start)). split; [lia|].
    apply in_seq. lia.
Qed.

Lemma tile_ids_NoDup (start stop : Z) : NoDup (Tiles.tile_ids start stop).
Proof.
  unfold Tiles.tile_ids. apply Finite.Injective_map_NoDup.
  - intros x y Hxy. lia.
  - apply seq_NoDup.
Qed.

End RangeFacts.

(** ** Theorems on the weights *)

Module WeightsFacts.
Import Weights RangeFacts.

Lemma fold_max_ge (l : list Z) (a : Z) :
  a <= fold_left Z.max l a /\
  (forall x, In x l -> x <= fold_left Z.max l a).
Proof.
  revert a. induction l as [|y l IH]; intros a; simpl.
  - split; [lia|]. intros x [].
  - destruct (IH (Z.max a y)) as [H1 H2]. split; [lia|].
    intros x [Hx | Hx]; [subst; lia|]. apply H2, Hx.
Qed.

Lemma fold_max_attained (l : list Z) (a : Z) :
  fold_left Z.max l a = a \/ In (fold_left Z.max l a) l.
Proof.
  revert a. induction l as [|y l IH]; intros a; simpl.
  - now left.
  - destruct (IH (Z.max a y)) as [H1 | H1].
    + rewrite H1. destruct (Z.max_spec a y) as [[_ E] | [_ E]];
        rewrite E; auto.
    + right; right; exact H1.
Qed.

(** [max_pixel_value] is the largest weight of the image. *)
Lemma max_pixel_value_spec (nc nr : Z) (w : Z -> Z -> Z) :
  0 < nc -> 0 < nr ->
  (forall c r, 0 <= c < nc -> 0 <= r < nr ->
               w c r <= max_pixel_value nc nr w) /\
  (exists c r, 0 <= c < nc /\ 0 <= r < nr /\
               w c r = max_pixel_value nc nr w).
Proof.
  intros Hc Hr. unfold max_pixel_value.
  set (l := map (fun p => w (fst p) (snd p)) (pixel_list nc nr)).
  destruct (fold_max_ge l (w 0 0)) as [Hge Hall]. split.
  - intros c r Hcr Hrr. apply Hall. unfold l. apply in_map_iff.
    exists (c, r). split; [reflexivity|]. apply pixel_list_In. lia.
  - destruct (fold_max_attained l (w 0 0)) as [E | Hin].
    + exists 0, 0. rewrite E. lia.
    + unfold l in Hin at 2. apply in_map_iff in Hin.
      destruct Hin as [[c r] [E Hin]]. apply pixel_list_In in Hin.
      exists c, r. simpl in E. fold l in E. lia.
Qed.

Lemma clamp_is_clamp_spec (x low high : Z) :
  low <= high -> clamp x low high = clamp_spec x low high.
Proof.
  intros Hlh. unfold clamp, clamp_spec.
  destruct (Z.gtb_spec x high); destruct (Z.ltb_spec x low); lia.
Qed.

Lemma max_cutoff_above (m e : Z) : e < max_cutoff_spec m e.
Proof.
  unfold max_cutoff_spec. destruct (Z.gtb_spec m e); lia.
Qed.

(** C3: the eroded weights are clamp(w - erode_len, 0, max_cutoff -
    erode_len) at every pixel, where max_cutoff is the largest weight of the
    image when that exceeds erode_len and erode_len + 1 otherwise; the
    largest weight is an upper bound of the image that some pixel attains. *)
Theorem erode_is_clamp (nc nr erode_len : Z) (w : Z -> Z -> Z) :
  0 < nc -> 0 < nr -> 0 <= erode_len ->
  let max_weight := max_pixel_value nc nr w in
  (forall c r, 0 <= c < nc -> 0 <= r < nr -> w c r <= max_weight) /\
  (exists c r, 0 <= c < nc /\ 0 <= r < nr /\ w c r = max_weight) /\
  forall c r,
    erode nc nr erode_len w c r =
    clamp_spec (w c r - erode_len) 0
               (max_cutoff_spec max_weight erode_len - erode_len).
Proof.
  intros Hc Hr He max_weight.
  destruct (max_pixel_value_spec nc nr w Hc Hr) as [Hub Hatt].
  split; [exact Hub|]. split; [exact Hatt|].
  intros c r. unfold erode. fold max_weight.
  assert (E : (if max_weight <=? erode_len then erode_len + 1 else max_weight)
              = max_cutoff_spec max_weight erode_len).
  { unfold max_cutoff_spec.
    destruct (Z.leb_spec max_weight erode_len);
      destruct (Z.gtb_spec max_weight erode_len); lia. }
  rewrite E. apply clamp_is_clamp_spec.
  pose proof (max_cutoff_above max_weight erode_len). lia.
Qed.

Lemma erode_is_clamp_witness :
  erode 2 1 1 (fun c _ => if c =? 0 then 3 else 1) 0 0 = 2 /\
  erode 2 1 1 (fun c _ => if c =? 0 then 3 else 1) 1 0 = 0.
Proof.
  destruct (erode_is_clamp 2 1 1 (fun c _ => if c =? 0 then 3 else 1)
              ltac:(lia) ltac:(lia) ltac:(lia)) as [_ [_ E]].
  split; rewrite E; reflexivity.
Defined.

(** Where no weight exceeds [erode_len] the eroded image is zero everywhere:
    the ceiling [erode_len + 1] only keeps the clamp interval non-empty. *)
Lemma erode_all_zero (nc nr erode_len : Z) (w : Z -> Z -> Z) :
  0 < nc -> 0 < nr ->
  max_pixel_value nc nr w <= erode_len ->
  forall c r, 0 <= c < nc -> 0 <= r < nr ->
              erode nc nr erode_len w c r = 0.
Proof.
  intros Hc Hr Hmax c r Hcr Hrr.
  destruct (max_pixel_value_spec nc nr w Hc Hr) as [Hub _].
  specialize (Hub c r Hcr Hrr). unfold erode, clamp.
  destruct (Z.leb_spec (max_pixel_value nc nr w) erode_len); [|lia].
  destruct (Z.gtb_spec (w c r - erode_len) (erode_len + 1 - erode_len)); [lia|].
  destruct (Z.ltb_spec (w c r - erode_len) 0); lia.
Qed.

End WeightsFacts.

(** ** Theorems on the compositor *)

Module CompositorFacts.
Import Compositor RangeFacts.

Section Generic.
Context {F : Type} `{DoubleOps F}.
Variable grassfire : Image F -> Z -> Z -> Z.
Variable interp : Image (GrayA F) -> F -> F -> GrayA F.

Lemma sweep_rows (body : Z -> Z -> @Buffers F -> @Buffers F)
      (g : Z -> Z -> F * F -> F * F) (c : Z) (rs : list Z) :
  local_body body g -> NoDup rs ->
  forall b c' r',
    at_px (fold_left (fun b r => body c r b) rs b) c' r' =
    if (c' =? c) && existsb (Z.eqb r') rs
    then g c r' (at_px b c r') else at_px b c' r'.
Proof.
  intros Hloc. induction rs as [|r rs IH]; intros Hnd b c' r'; simpl.
  - rewrite andb_false_r. reflexivity.
  - inversion Hnd as [|? ? Hnotin Hnd']; subst.
    rewrite (IH Hnd'). rewrite !Hloc.
    destruct (Z.eqb_spec c' c) as [-> | Hc]; simpl; [|reflexivity].
    rewrite Z.eqb_refl. simpl.
    destruct (existsb (Z.eqb r') rs) eqn:Hex.
    + apply existsb_exists in Hex. destruct Hex as [x [Hin Hx]].
      apply Z.eqb_eq in Hx. subst x.
      destruct (Z.eqb_spec r' r) as [-> | Hr]; [contradiction|].
      rewrite orb_true_r. reflexivity.
    + rewrite orb_false_r. destruct (Z.eqb_spec r' r) as [-> | Hr];
        reflexivity.
Qed.

Lemma sweep_cols (body : Z -> Z -> @Buffers F -> @Buffers F)
      (g : Z -> Z -> F * F -> F * F) (h : Z) (cs : list Z) :
  local_body body g -> NoDup cs ->
  forall b c' r',
    at_px (fold_left (fun b c => fold_left (fun b r => body c r b)
                                           (range h) b) cs b) c' r' =
    if existsb (Z.eqb c') cs && existsb (Z.eqb r') (range h)
    then g c' r' (at_px b c' r') else at_px b c' r'.
Proof.
  intros Hloc. induction cs as [|c cs IH]; intros Hnd b c' r'; simpl.
  - reflexivity.
  - inversion Hnd as [|? ? Hnotin Hnd']; subst.
    rewrite (IH Hnd').
    rewrite !(sweep_rows body g c (range h) Hloc (range_NoDup h)).
    destruct (existsb (Z.eqb r') (range h)) eqn:Hr;
      rewrite ?andb_false_r, ?andb_true_r; [|reflexivity].
    destruct (existsb (Z.eqb c') cs) eqn:Hex.
    + apply existsb_exists in Hex. destruct Hex as [x [Hin Hx]].
      apply Z.eqb_eq in Hx. subst x.
      destruct (Z.eqb_spec c' c) as [-> | Hc]; [contradiction|].
      reflexivity.
    + rewrite orb_false_r. destruct (Z.eqb_spec c' c) as [-> | Hc];
        reflexivity.
Qed.

Lemma existsb_range (n k : Z) :
  existsb (Z.eqb k) (range n) = (0 <=? k) && (k <? n).
Proof.
  destruct (existsb (Z.eqb k) (range n)) eqn:E.
  - apply existsb_exists in E. destruct E as [x [Hin Hx]].
    apply Z.eqb_eq in Hx. subst x. apply range_In in Hin.
    symmetry. apply andb_true_iff. split; [apply Z.leb_le|apply Z.ltb_lt]; lia.
  - symmetry. apply not_true_is_false. intros Hk.
    apply andb_true_iff in Hk. destruct Hk as [H1 H2].
    apply Z.leb_le in H1. apply Z.ltb_lt in H2.
    assert (Hex : existsb (Z.eqb k) (range n) = true).
    { apply existsb_exists. exists k. split; [apply range_In; lia|].
      apply Z.eqb_refl. }
    congruence.
Qed.

(** A sweep applies the pixel function once to every pixel of the block and
    leaves the other entries as they are. *)
Lemma sweep_at (body : Z -> Z -> @Buffers F -> @Buffers F)
      (g : Z -> Z -> F * F -> F * F) (w h : Z) (b : Buffers) (c r : Z) :
  local_body body g ->
  at_px (sweep body w h b) c r =
  if ((0 <=? c) && (c <? w)) && ((0 <=? r) && (r <? h))
  then g c r (at_px b c r) else at_px b c r.
Proof.
  intros Hloc. unfold sweep.
  rewrite (sweep_cols body g h (range w) Hloc (range_NoDup w)).
  rewrite !existsb_range. reflexivity.
Qed.

Lemma pixel_step_local draft_mode out_nodata bbox s dem :
  local_body (pixel_step interp draft_mode out_nodata bbox s dem)
             (pixel_fun interp draft_mode out_nodata bbox s dem).
Proof.
  intros c r b c' r'. unfold pixel_step, pixel_fun, at_px.
  destruct (contribution interp dem _ _) as [pval|]; simpl.
  - unfold upd. destruct ((c' =? c) && (r' =? r));
      [symmetry; apply surjective_pairing | reflexivity].
  - destruct ((c' =? c) && (r' =? r)) eqn:E; [|reflexivity].
    apply andb_true_iff in E. destruct E as [E1 E2].
    apply Z.eqb_eq in E1. apply Z.eqb_eq in E2. subst. reflexivity.
Qed.

Lemma divide_step_local : local_body divide_step divide_fun.
Proof.
  intros c r b c' r'. unfold divide_step, divide_fun, at_px. simpl.
  destruct (dltb dzero (weights b c r)); simpl.
  - unfold upd. destruct ((c' =? c) && (r' =? r)) eqn:E; [|reflexivity].
    apply andb_true_iff in E. destruct E as [E1 E2].
    apply Z.eqb_eq in E1. apply Z.eqb_eq in E2. subst. reflexivity.
  - destruct ((c' =? c) && (r' =? r)) eqn:E; [|reflexivity].
    apply andb_true_iff in E. destruct E as [E1 E2].
    apply Z.eqb_eq in E1. apply Z.eqb_eq in E2. subst. reflexivity.
Qed.

(** The division loop, pixel by pixel. *)
Lemma prerasterize_at draft_mode erode_len out_nodata bbox sources c r :
  in_block bbox c r = true ->
  let acc := accumulated grassfire interp draft_mode erode_len out_nodata
                         bbox sources in
  prerasterize grassfire interp draft_mode erode_len out_nodata bbox sources
               c r =
  fst (divide_fun c r (at_px acc c r)).
Proof.
  intros Hin acc. unfold prerasterize. fold acc.
  pose proof (sweep_at divide_step divide_fun (bwidth bbox) (bheight bbox)
                       acc c r divide_step_local) as E.
  unfold in_block in Hin. rewrite Hin in E.
  rewrite <- E. reflexivity.
Qed.

Lemma source_step_at draft_mode erode_len out_nodata bbox b s c r :
  at_px (source_step grassfire interp draft_mode erode_len out_nodata bbox
                     b s) c r =
  source_fun grassfire interp draft_mode erode_len out_nodata bbox c r (at_px b c r) s.
Proof.
  unfold source_step, source_fun. destruct (src_empty s); [reflexivity|].
  rewrite (sweep_at _ _ _ _ _ _ _
             (pixel_step_local draft_mode out_nodata bbox s _)).
  reflexivity.
Qed.

(** The loop over the DEMs, pixel by pixel. *)
Lemma accumulated_at draft_mode erode_len out_nodata bbox sources c r :
  at_px (accumulated grassfire interp draft_mode erode_len out_nodata bbox
                     sources) c r =
  fold_left (source_fun grassfire interp draft_mode erode_len out_nodata bbox c r) sources
            (out_nodata, dzero).
Proof.
  unfold accumulated.
  change (out_nodata, dzero) with (at_px (initial_buffers out_nodata) c r).
  generalize (initial_buffers out_nodata).
  induction sources as [|s sources IH]; intros b; simpl; [reflexivity|].
  rewrite IH, source_step_at. reflexivity.
Qed.

Lemma contribution_weight dem x y pval :
  contribution interp dem x y = Some pval -> dleb (pa pval) dzero = false.
Proof.
  unfold contribution. destruct (sample interp dem x y) as [p|];
    [|discriminate].
  destruct (dleb (pa p) dzero) eqn:E; [discriminate|].
  intros E'. inversion E'; subst. exact E.
Qed.

(** *** The on-grid case *)

(** C4, amended: where both coordinates are within [g_tol] of their rounded
    values and the rounded position is a pixel of the cropped DEM, the
    sample is that pixel itself (value and weight), whatever the
    interpolation would give, and it contributes unless its weight is
    [<= 0]; [g_tol] is 1e-6, and it is the tolerance of this on-grid test
    alone: the weight test and the extent test compare exactly, so off the
    grid a coordinate outside the closed extent is refused however near it
    is. *)
Theorem on_grid_takes_pixel (dem : Image (GrayA F)) (x y : F) :
  (dltb (dabs (dsub x (of_int (round_int x)))) g_tol = true ->
   dltb (dabs (dsub y (of_int (round_int y)))) g_tol = true ->
   in_image dem (round_int x) (round_int y) = true ->
   sample interp dem x y = Some (px dem (round_int x) (round_int y)) /\
   contribution interp dem x y =
     (if dleb (pa (px dem (round_int x) (round_int y))) dzero then None
      else Some (px dem (round_int x) (round_int y)))) /\
  g_tol = ddiv (of_int 1) (of_int 1000000) /\
  (on_grid dem x y = false ->
   dleb dzero x = false \/ dleb x (of_int (cols dem - 1)) = false \/
   dleb dzero y = false \/ dleb y (of_int (rows dem - 1)) = false ->
   sample interp dem x y = None /\ contribution interp dem x y = None).
Proof.
  split; [|split; [reflexivity|]].
  - intros Hx Hy Hin.
    assert (Hon : on_grid dem x y = true).
    { unfold on_grid. rewrite Hx, Hy. unfold in_image in Hin.
      simpl. rewrite <- !andb_assoc in *. exact Hin. }
    assert (Hs : sample interp dem x y
                 = Some (px dem (round_int x) (round_int y))).
    { unfold sample. rewrite Hon. reflexivity. }
    split; [exact Hs|].
    unfold contribution. rewrite Hs. reflexivity.
  - intros Hoff Hout.
    assert (Hgood : is_good dem x y = false).
    { unfold is_good.
      destruct Hout as [E | [E | [E | E]]]; rewrite E;
        rewrite ?andb_false_r; reflexivity. }
    assert (Hs : sample interp dem x y = None).
    { unfold sample. rewrite Hoff, Hgood. reflexivity. }
    split; [exact Hs|]. unfold contribution. rewrite Hs. reflexivity.
Qed.

(** *** The interpolated case *)

(** C5, amended: off the grid a DEM contributes only if the coordinate is
    within the closed extent [0, cols-1] x [0, rows-1], none of the four
    surrounding pixels has a weight <= 0 and the interpolated weight is not
    <= 0, and then it contributes the interpolated pixel; where one of these
    fails there is no contribution and the loop body leaves the buffers as
    they are. *)
Theorem off_grid_contribution (dem : Image (GrayA F)) (x y : F) :
  on_grid dem x y = false ->
  (forall pval,
      contribution interp dem x y = Some pval ->
      (dleb dzero x = true /\ dleb x (of_int (cols dem - 1)) = true /\
       dleb dzero y = true /\ dleb y (of_int (rows dem - 1)) = true) /\
      (dleb (pa (px dem (floor_int x) (floor_int y))) dzero = false /\
       dleb (pa (px dem (floor_int x + 1) (floor_int y))) dzero = false /\
       dleb (pa (px dem (floor_int x) (floor_int y + 1))) dzero = false /\
       dleb (pa (px dem (floor_int x + 1) (floor_int y + 1))) dzero = false) /\
      pval = interp dem x y /\ dleb (pa pval) dzero = false) /\
  (is_good dem x y = false \/
   some_neighbour_nonpositive dem (floor_int x) (floor_int y) = true \/
   dleb (pa (interp dem x y)) dzero = true ->
   contribution interp dem x y = None /\
   forall draft_mode out_nodata bbox s c r b,
     local_coords bbox s c r = (x, y) ->
     pixel_step interp draft_mode out_nodata bbox s dem c r b = b).
Proof.
  intros Hoff.
  assert (Hc : contribution interp dem x y =
               if negb (is_good dem x y) then None
               else if some_neighbour_nonpositive dem (floor_int x)
                                                  (floor_int y) then None
               else if dleb (pa (interp dem x y)) dzero then None
               else Some (interp dem x y)).
  { unfold contribution, sample. rewrite Hoff.
    destruct (is_good dem x y); simpl; [|reflexivity].
    destruct (some_neighbour_nonpositive dem _ _); reflexivity. }
  split.
  - intros pval Hp. rewrite Hc in Hp.
    destruct (is_good dem x y) eqn:Hg; simpl in Hp; [|discriminate].
    destruct (some_neighbour_nonpositive dem _ _) eqn:Hn; [discriminate|].
    destruct (dleb (pa (interp dem x y)) dzero) eqn:Hw; [discriminate|].
    inversion Hp; subst pval. clear Hp.
    unfold is_good in Hg. rewrite !andb_true_iff in Hg.
    unfold some_neighbour_nonpositive in Hn. rewrite !orb_false_iff in Hn.
    repeat split; tauto.
  - intros Hfail.
    assert (Hnone : contribution interp dem x y = None).
    { rewrite Hc. destruct Hfail as [Hg | [Hn | Hw]].
      - rewrite Hg. reflexivity.
      - rewrite Hn. destruct (negb (is_good dem x y)); reflexivity.
      - rewrite Hw. destruct (negb (is_good dem x y)); [reflexivity|].
        destruct (some_neighbour_nonpositive dem _ _); reflexivity. }
    split; [exact Hnone|].
    intros draft_mode out_nodata bbox s c r b Hxy.
    unfold pixel_step. rewrite Hxy. simpl. rewrite Hnone. reflexivity.
Qed.

(** *** Normalisation *)

(** In draft mode an accumulated weight is the initial 0 or exactly 1, so
    the division loop divides by 1 there. *)
Lemma draft_weight_is_one erode_len out_nodata bbox sources c r :
  let acc := accumulated grassfire interp true erode_len out_nodata bbox
                         sources in
  weights acc c r = dzero \/ weights acc c r = done.
Proof.
  intros acc.
  change (weights acc c r) with (snd (at_px acc c r)).
  unfold acc. rewrite accumulated_at.
  assert (Hinit : snd (out_nodata, @dzero F _) = dzero
                  \/ snd (out_nodata, @dzero F _) = done)
    by (left; reflexivity).
  revert Hinit. generalize (out_nodata, @dzero F _).
  induction sources as [|s sources IH]; intros tw Hinv; simpl; [exact Hinv|].
  apply IH. unfold source_fun.
  destruct (src_empty s); [exact Hinv|].
  destruct (in_block bbox c r); [|exact Hinv].
  unfold pixel_fun.
  destruct (contribution interp _ _ _); [|exact Hinv].
  right. reflexivity.
Qed.

Section Normalise.

(** The facts about [double] comparison and addition that the argument
    uses; binary64 has them, rounding being monotone. *)
Hypothesis add_touched :
  forall a b, a = dzero \/ touched a -> dleb b dzero = false ->
              touched (dadd a b).
Hypothesis touched_nonzero : forall a, touched a -> deqb a dzero = false.
Hypothesis one_touched : touched done.

Lemma source_fun_invariant draft_mode erode_len out_nodata bbox c r tw s :
  untouched_or_weighted out_nodata tw ->
  untouched_or_weighted out_nodata
    (source_fun grassfire interp draft_mode erode_len out_nodata bbox c r tw s).
Proof.
  intros Hinv. unfold source_fun.
  destruct (src_empty s); [exact Hinv|].
  destruct (in_block bbox c r); [|exact Hinv].
  unfold pixel_fun.
  destruct (contribution interp _ _ _) as [pval|] eqn:Hc; [|exact Hinv].
  apply contribution_weight in Hc. right. unfold blend.
  destruct draft_mode; simpl; [exact one_touched|].
  apply add_touched; [|exact Hc].
  destruct Hinv as [-> | Ht]; [left; reflexivity | right; exact Ht].
Qed.

Lemma accumulated_invariant draft_mode erode_len out_nodata bbox sources c r :
  untouched_or_weighted out_nodata
    (at_px (accumulated grassfire interp draft_mode erode_len out_nodata
                        bbox sources) c r).
Proof.
  rewrite accumulated_at.
  assert (Hinit : untouched_or_weighted out_nodata (out_nodata, dzero))
    by (left; reflexivity).
  revert Hinit. generalize (out_nodata, dzero).
  induction sources as [|s sources IH]; intros tw Hinv; simpl; [exact Hinv|].
  apply IH, source_fun_invariant, Hinv.
Qed.

(** C2: after the loop over the DEMs, a pixel of the block whose accumulated
    weight is positive ends up as its accumulated sum divided by that
    weight, and a pixel whose accumulated weight is zero still holds the
    output no-data value the tile buffer was filled with. *)
Theorem normalised_or_nodata draft_mode erode_len out_nodata bbox sources
        c r :
  in_block bbox c r = true ->
  let acc := accumulated grassfire interp draft_mode erode_len out_nodata
                         bbox sources in
  (dltb dzero (weights acc c r) = true ->
   prerasterize grassfire interp draft_mode erode_len out_nodata bbox
                sources c r = ddiv (tile acc c r) (weights acc c r)) /\
  (deqb (weights acc c r) dzero = true ->
   tile acc c r = out_nodata /\
   prerasterize grassfire interp draft_mode erode_len out_nodata bbox
                sources c r = out_nodata).
Proof.
  intros Hin acc.
  pose proof (prerasterize_at draft_mode erode_len out_nodata bbox sources
                              c r Hin) as Hfin.
  simpl in Hfin. fold acc in Hfin. rewrite Hfin.
  unfold divide_fun, at_px. simpl. split.
  - intros Hpos. rewrite Hpos. reflexivity.
  - intros Hzero.
    assert (Hnt : ~ touched (weights acc c r)).
    { intros Ht. apply touched_nonzero in Ht. congruence. }
    destruct (accumulated_invariant draft_mode erode_len out_nodata bbox
                                    sources c r) as [E | Ht];
      [|contradiction].
    fold acc in E. unfold at_px in E.
    pose proof (f_equal fst E) as Et. simpl in Et.
    destruct (dltb dzero (weights acc c r)) eqn:Hlt.
    + exfalso. apply Hnt. left. exact Hlt.
    + simpl. split; exact Et.
Qed.

End Normalise.

End Generic.
End CompositorFacts.

(** ** Exact arithmetic has the facts the normalisation argument uses *)

Module ExactFacts.
Import Compositor.

Lemma dleb_false (a b : Q) : dleb a b = false <-> (b < a)%Q.
Proof.
  simpl. split.
  - intros E. apply Qnot_le_lt. intros Hle. apply Qle_bool_iff in Hle.
    congruence.
  - intros Hlt. apply not_true_is_false. intros E.
    apply Qle_bool_iff in E. apply (Qlt_not_le _ _ Hlt E).
Qed.

Lemma dltb_true (a b : Q) : dltb a b = true <-> (a < b)%Q.
Proof.
  change (dltb a b) with (negb (dleb b a)). rewrite negb_true_iff.
  apply dleb_false.
Qed.

Lemma touched_iff (w : Q) : touched w <-> (0 < w)%Q.
Proof.
  unfold touched. rewrite dltb_true. simpl. split.
  - intros [Hw | Hw]; [exact Hw | discriminate].
  - intros Hw. left. exact Hw.
Qed.

Lemma exact_add_touched (a b : Q) :
  a = dzero \/ touched a -> dleb b dzero = false -> touched (dadd a b).
Proof.
  intros Ha Hb. apply dleb_false in Hb. apply touched_iff.
  change (dadd a b) with (a + b)%Q. change (@dzero Q _) with 0%Q in *.
  destruct Ha as [-> | Ha]; [lra|]. apply touched_iff in Ha. lra.
Qed.

Lemma exact_touched_nonzero (a : Q) : touched a -> deqb a dzero = false.
Proof.
  intros Ha. apply touched_iff in Ha. apply not_true_is_false. intros E.
  change (Qeq_bool a 0 = true) in E. apply Qeq_bool_iff in E. lra.
Qed.

Lemma exact_one_touched : touched (@done Q _).
Proof. apply touched_iff. reflexivity. Qed.

Lemma g_tol_exact : (@g_tol Q _ == 1 # 1000000)%Q.
Proof. reflexivity. Qed.

End ExactFacts.

(** ** The compositor on concrete blocks *)

Module ScenarioFacts.
Import Compositor Scenarios.

(** One DEM of a single pixel of height 5 on the output grid, blended mode,
    no erosion, no-data value -1. *)
Lemma normalised_or_nodata_witness :
  in_block unit_block 0 0 = true /\
  dltb dzero
       (weights (lib_accumulated false 0 (-1)%Q unit_block
                   [aligned_source (const_image 1 1 5%Q) (-1)%Q]) 0 0) = true /\
  lib_prerasterize false 0 (-1)%Q unit_block
               [aligned_source (const_image 1 1 5%Q) (-1)%Q] 0 0 = 5%Q.
Proof.
  assert (Hin : in_block unit_block 0 0 = true) by reflexivity.
  split; [exact Hin|].
  assert (Hpos : dltb dzero
       (weights (lib_accumulated false 0 (-1)%Q unit_block
                   [aligned_source (const_image 1 1 5%Q) (-1)%Q]) 0 0) = true)
    by reflexivity.
  split; [exact Hpos|].
  destruct (CompositorFacts.normalised_or_nodata
              Library.grassfire Library.bilinear
              ExactFacts.exact_add_touched ExactFacts.exact_touched_nonzero
              ExactFacts.exact_one_touched
              false 0 (-1)%Q unit_block
              [aligned_source (const_image 1 1 5%Q) (-1)%Q] 0 0 Hin)
    as [Hdiv _].
  unfold lib_prerasterize. rewrite (Hdiv Hpos). reflexivity.
Defined.

Lemma flat_dem_pixels :
  map (fun p => px flat_dem (fst p) (snd p)) (pixel_list 2 2) =
  repeat (mkGrayA (Binary64.of_Z 7) (Binary64.of_Z 1)) 4.
Proof. vm_compute. reflexivity. Qed.

(** The coordinate (1 + 2^-30, 0) is within 1e-6 of the pixel (1, 0). *)
Lemma on_grid_takes_pixel_witness :
  sample Library.bilinear flat_dem
         (dadd (Binary64.of_Z 1) (Binary64.dyadic 1 30)) (Binary64.of_Z 0) =
  Some (px flat_dem 1 0).
Proof.
  refine (proj1 (proj1 (CompositorFacts.on_grid_takes_pixel
                          Library.bilinear flat_dem
                          (dadd (Binary64.of_Z 1) (Binary64.dyadic 1 30))
                          (Binary64.of_Z 0)) _ _ _));
    vm_compute; reflexivity.
Defined.

(** C4 as stated fails for the comparisons other than the on-grid test: the
    coordinate (1 + 2^-30, 1/2) of [flat_dem] is within 1e-6 of the last
    column, 1, but it is off the grid, the extent test [x <= cols - 1]
    fails without any tolerance, and nothing is contributed. *)
Lemma near_extent_is_refused :
  let x := dadd (Binary64.of_Z 1) (Binary64.dyadic 1 30) in
  let y := Binary64.dyadic 1 1 in
  dltb (dabs (dsub x (of_int (cols flat_dem - 1)))) g_tol = true /\
  on_grid flat_dem x y = false /\
  dleb x (of_int (cols flat_dem - 1)) = false /\
  is_good flat_dem x y = false /\
  lib_contribution flat_dem x y = None.
Proof. vm_compute. repeat split. Qed.

(** C5 as stated fails on the boundary: the coordinate (0, 1/2) of
    [flat_dem] is off the grid and not strictly inside the extent (x is 0),
    yet the DEM contributes there, with the interpolated height 7 and
    weight 1. *)
Lemma boundary_coordinate_contributes :
  on_grid flat_dem (Binary64.of_Z 0) (Binary64.dyadic 1 1) = false /\
  strictly_within flat_dem (Binary64.of_Z 0) (Binary64.dyadic 1 1) = false /\
  lib_contribution flat_dem (Binary64.of_Z 0) (Binary64.dyadic 1 1) =
    Some (mkGrayA (Binary64.of_Z 7) (Binary64.of_Z 1)).
Proof. vm_compute. repeat split. Qed.

(** At (1/2, 3/2) the coordinate is off the grid and beyond the last row:
    nothing is contributed. *)
Lemma off_grid_contribution_witness :
  on_grid flat_dem (Binary64.dyadic 1 1) (Binary64.dyadic 3 1) = false /\
  lib_contribution flat_dem (Binary64.dyadic 1 1) (Binary64.dyadic 3 1) = None.
Proof.
  assert (Hoff : on_grid flat_dem (Binary64.dyadic 1 1) (Binary64.dyadic 3 1)
                 = false) by (vm_compute; reflexivity).
  split; [exact Hoff|].
  destruct (CompositorFacts.off_grid_contribution Library.bilinear flat_dem
              (Binary64.dyadic 1 1) (Binary64.dyadic 3 1) Hoff) as [_ Hskip].
  apply Hskip. left. vm_compute. reflexivity.
Defined.

End ScenarioFacts.

(** ** NaN pixels in binary64 *)

Module Binary64Facts.
Import Compositor RangeFacts.

Lemma nan_is_nan (v : spec_float) : Binary64.is_nan v = true -> v = S754_nan.
Proof. destruct v; simpl; intros E; try discriminate; reflexivity. Qed.

Lemma nan_neq (v n : spec_float) :
  Binary64.is_nan v = true -> deqb v n = false.
Proof. intros E. apply nan_is_nan in E. subst v. reflexivity. Qed.

Lemma library_grassfire_zero_outside :
  Library.zero_outside (@Library.grassfire spec_float _).
Proof.
  intros mask c r _ E. unfold Library.grassfire, Library.mask_valid.
  rewrite E. reflexivity.
Qed.

Lemma in_image_range {A} (im : Image A) (c r : Z) :
  in_image im c r = true -> 0 <= c < cols im /\ 0 <= r < rows im.
Proof.
  unfold in_image. rewrite !andb_true_iff, !Z.leb_le. lia.
Qed.

Lemma BigOrZero_cases (nodata v : spec_float) :
  Weights.BigOrZero nodata v = 0 \/ Weights.BigOrZero nodata v = 100000000.
Proof. unfold Weights.BigOrZero. destruct (negb (deqb v nodata)); auto. Qed.

(** The draft weight of a NaN pixel after the (empty) erosion. *)
Lemma draft_weight_nan grassfire (s : Source) (c r : Z) :
  in_image (src_dem s) c r = true ->
  Binary64.is_nan (px (src_dem s) c r) = true ->
  px (dem_with_weights grassfire true 0 s) c r =
  mkGrayA S754_nan (Binary64.of_Z 100000000).
Proof.
  intros Hin Hnan. apply in_image_range in Hin. destruct Hin as [Hc Hr].
  unfold dem_with_weights. cbn [px].
  set (w := Weights.local_wts grassfire true (src_nodata s) (src_dem s)).
  enough (Hero : Weights.erode (cols (src_dem s)) (rows (src_dem s)) 0 w c r
                 = 100000000)
    by (rewrite Hero, (nan_is_nan _ Hnan); reflexivity).
  assert (Hw : w c r = 100000000).
  { unfold w, Weights.local_wts, Weights.BigOrZero.
    rewrite (nan_neq _ _ Hnan). reflexivity. }
  destruct (WeightsFacts.max_pixel_value_spec (cols (src_dem s))
              (rows (src_dem s)) w ltac:(lia) ltac:(lia)) as [Hub [c' [r' Hatt]]].
  specialize (Hub c r Hc Hr).
  assert (Hmax : Weights.max_pixel_value (cols (src_dem s))
                   (rows (src_dem s)) w = 100000000).
  { destruct Hatt as [_ [_ Hatt]]. rewrite <- Hatt in *.
    destruct (BigOrZero_cases (src_nodata s) (px (src_dem s) c' r'))
      as [E | E]; unfold w, Weights.local_wts in *; lia. }
  unfold Weights.erode. rewrite Hmax, Hw. reflexivity.
Qed.

(** The blended weight of a NaN pixel after erosion. *)
Lemma blended_weight_nan grassfire (s : Source) (c r erode_len : Z) :
  Library.zero_outside grassfire ->
  in_image (src_dem s) c r = true ->
  Binary64.is_nan (px (src_dem s) c r) = true ->
  0 <= erode_len ->
  pa (px (dem_with_weights grassfire false erode_len s) c r) =
  Binary64.of_Z 0.
Proof.
  intros Hgf Hin Hnan He. unfold dem_with_weights. cbn [px pa].
  set (w := Weights.local_wts grassfire false (src_nodata s) (src_dem s)).
  enough (Hero : Weights.erode (cols (src_dem s)) (rows (src_dem s))
                   erode_len w c r = 0)
    by (rewrite Hero; reflexivity).
  assert (Hw : w c r = 0).
  { unfold w, Weights.local_wts. apply Hgf; [exact Hin|].
    simpl. unfold Weights.NotNoDataFunctor.
    change (disnan (px (src_dem s) c r))
      with (Binary64.is_nan (px (src_dem s) c r)).
    rewrite Hnan, andb_false_r. reflexivity. }
  unfold Weights.erode. rewrite Hw. unfold Weights.clamp.
  set (m := Weights.max_pixel_value _ _ _).
  destruct (Z.leb_spec m erode_len);
    destruct (Z.gtb_spec (0 - erode_len) (erode_len + 1 - erode_len));
    destruct (Z.gtb_spec (0 - erode_len) (m - erode_len));
    destruct (Z.ltb_spec (0 - erode_len) 0); lia.
Qed.

(** C9: a NaN pixel of a DEM. In draft mode it differs from the no-data
    value, gets the weight 1e+8 and, where an output pixel falls on it,
    contributes its value, so that the output pixel is NaN.  In blended mode
    the validity mask is at its minimum there, the weight is zero for every
    erosion length, and nothing is contributed. *)
Theorem nan_pixel_by_mode grassfire interp (s : Source) (c r : Z)
        (x y : spec_float) :
  Library.zero_outside grassfire ->
  in_image (src_dem s) c r = true ->
  Binary64.is_nan (px (src_dem s) c r) = true ->
  on_grid (dem_with_weights grassfire true 0 s) x y = true ->
  round_int x = c -> round_int y = r ->
  (deqb (px (src_dem s) c r) (src_nodata s) = false /\
   Weights.BigOrZero (src_nodata s) (px (src_dem s) c r) = 100000000 /\
   contribution interp (dem_with_weights grassfire true 0 s) x y =
     Some (mkGrayA S754_nan (Binary64.of_Z 100000000)) /\
   forall out_nodata bbox oc or,
     src_empty s = false -> in_block bbox oc or = true ->
     local_coords bbox s oc or = (x, y) ->
     prerasterize grassfire interp true 0 out_nodata bbox [s] oc or =
     S754_nan) /\
  (Weights.NotNoDataFunctor (src_nodata s) (px (src_dem s) c r) =
     Weights.range_min /\
   forall erode_len, 0 <= erode_len ->
     pa (px (dem_with_weights grassfire false erode_len s) c r) =
       Binary64.of_Z 0 /\
     contribution interp (dem_with_weights grassfire false erode_len s) x y =
       None).
Proof.
  intros Hgf Hin Hnan Hon Hx Hy.
  assert (Hcon : contribution interp (dem_with_weights grassfire true 0 s) x y
                 = Some (mkGrayA S754_nan (Binary64.of_Z 100000000))).
  { unfold contribution, sample. rewrite Hon, Hx, Hy.
    rewrite (draft_weight_nan grassfire s c r Hin Hnan). reflexivity. }
  split; [split; [|split; [|split]]|split].
  - apply nan_neq, Hnan.
  - unfold Weights.BigOrZero. rewrite (nan_neq _ _ Hnan). reflexivity.
  - exact Hcon.
  - intros out_nodata bbox oc or Hne Hblk Hxy.
    rewrite (CompositorFacts.prerasterize_at grassfire interp true 0
               out_nodata bbox [s] oc or Hblk).
    rewrite CompositorFacts.accumulated_at. simpl.
    unfold source_fun. rewrite Hne, Hblk. unfold pixel_fun.
    rewrite Hxy. simpl. rewrite Hcon. reflexivity.
  - unfold Weights.NotNoDataFunctor.
    change (disnan (px (src_dem s) c r))
      with (Binary64.is_nan (px (src_dem s) c r)).
    rewrite Hnan, andb_false_r. reflexivity.
  - intros erode_len He.
    pose proof (blended_weight_nan grassfire s c r erode_len Hgf Hin Hnan He)
      as Hw.
    split; [exact Hw|].
    unfold contribution, sample.
    change (on_grid (dem_with_weights grassfire false erode_len s) x y)
      with (on_grid (dem_with_weights grassfire true 0 s) x y).
    rewrite Hon, Hx, Hy, Hw. reflexivity.
Qed.

(** In binary64 [g_tol] is the double 4722366482869645 * 2^-72, which is
    within half a unit in the last place of 10^-6. *)
Lemma g_tol_binary64 :
  @g_tol spec_float _ = S754_finite false 4722366482869645 (-72) /\
  2 * Z.abs (4722366482869645 * 10 ^ 6 - 2 ^ 72) <= 10 ^ 6.
Proof. split; [vm_compute; reflexivity | vm_compute; discriminate]. Qed.

(** The one-pixel NaN DEM: the draft mosaic of the block is NaN. *)
Lemma nan_pixel_by_mode_witness :
  Scenarios.lib_prerasterize true 0 (Binary64.of_Z (-1)) Scenarios.unit_block
                         [Scenarios.nan_source] 0 0 = S754_nan /\
  Scenarios.lib_contribution
    (Scenarios.lib_dem_with_weights false 0 Scenarios.nan_source)
    (Binary64.of_Z 0) (Binary64.of_Z 0) = None.
Proof.
  destruct (nan_pixel_by_mode Library.grassfire Library.bilinear
              Scenarios.nan_source 0 0 (Binary64.of_Z 0) (Binary64.of_Z 0)
              library_grassfire_zero_outside
              eq_refl eq_refl eq_refl eq_refl eq_refl)
    as [[_ [_ [_ Hdraft]]] [_ Hblend]].
  split.
  - apply Hdraft; reflexivity.
  - apply (Hblend 0). lia.
Defined.

End Binary64Facts.

(** ** Theorems on the longitude adjustment *)

Module LonlatFacts.
Import Lonlat.

(** C8: the box handed to the conversion is the given box with
    360 * round((origin_longitude - box_center_longitude) / 360) added to
    both longitudes, the origin longitude being that of pixel (0, 0) and the
    centre the mean of the box's two longitudes. *)
Theorem adjustment_shifts_by_turns {F : Type} `{DoubleOps F}
        (georef : GeoReference F) (lonlat_box : BBox2 F) :
  let origin_longitude := fst (pixel_to_lonlat georef (of_int 0, of_int 0)) in
  let box_center_longitude :=
    ddiv (dadd (min_x lonlat_box) (max_x lonlat_box)) (of_int 2) in
  let shift :=
    round_int (ddiv (dsub origin_longitude box_center_longitude)
                    (of_int 360)) in
  longitude_shift georef lonlat_box = shift /\
  min_x (adjusted_box georef lonlat_box) =
    dadd (min_x lonlat_box) (dmul (of_int 360) (of_int shift)) /\
  max_x (adjusted_box georef lonlat_box) =
    dadd (max_x lonlat_box) (dmul (of_int 360) (of_int shift)) /\
  min_y (adjusted_box georef lonlat_box) =
    dadd (min_y lonlat_box) (dmul (of_int 0) (of_int shift)) /\
  max_y (adjusted_box georef lonlat_box) =
    dadd (max_y lonlat_box) (dmul (of_int 0) (of_int shift)) /\
  lonlat_to_pixel_bbox_with_adjustment georef lonlat_box =
    lonlat_to_pixel_bbox georef (adjusted_box georef lonlat_box) 1000.
Proof. repeat split. Qed.

(** Rounding to the nearest integer moves a rational by at most 1/2. *)
Lemma round_half_away_near (q : Q) :
  (Qabs (q - inject_Z (Exact.Qround_half_away q)) <= 1 # 2)%Q.
Proof.
  unfold Exact.Qround_half_away.
  destruct (Qle_bool 0 q) eqn:E; apply Qabs_Qle_condition.
  - pose proof (Qfloor_le (q + (1 # 2))) as H1.
    pose proof (Qlt_floor (q + (1 # 2))) as H2.
    rewrite inject_Z_plus in H2. change (inject_Z 1) with 1%Q in H2.
    set (f := inject_Z (Qfloor (q + (1 # 2)))) in *. split; lra.
  - pose proof (Qfloor_le (- q + (1 # 2))) as H1.
    pose proof (Qlt_floor (- q + (1 # 2))) as H2.
    rewrite inject_Z_plus in H2. change (inject_Z 1) with 1%Q in H2.
    rewrite inject_Z_opp.
    set (f := inject_Z (Qfloor (- q + (1 # 2)))) in *. split; lra.
Qed.

(** In exact arithmetic the shift is the nearest multiple of 360: after the
    adjustment the box centre is within 180 degrees of the origin
    longitude. *)
Lemma adjusted_center_near_origin (georef : GeoReference Q)
      (lonlat_box : BBox2 Q) :
  let origin_longitude := fst (pixel_to_lonlat georef (0, 0)%Q) in
  let center := ((min_x lonlat_box + max_x lonlat_box) / 2)%Q in
  let turns := Exact.Qround_half_away ((origin_longitude - center) / 360) in
  -2147483648 <= turns <= 2147483647 ->
  let adjusted := adjusted_box georef lonlat_box in
  (Qabs (origin_longitude - (min_x adjusted + max_x adjusted) / 2) <= 180)%Q.
Proof.
  intros origin_longitude center turns Hfit adjusted.
  assert (Hshift : longitude_shift georef lonlat_box = turns).
  { change (longitude_shift georef lonlat_box) with (to_int (Some turns)).
    destruct Hfit as [H1 H2]. apply Z.leb_le in H1. apply Z.leb_le in H2.
    unfold to_int. rewrite H1, H2. reflexivity. }
  unfold adjusted, adjusted_box. rewrite Hshift.
  change (Qabs (origin_longitude -
                ((min_x lonlat_box + 360 * inject_Z turns) +
                 (max_x lonlat_box + 360 * inject_Z turns)) / 2) <= 180)%Q.
  pose proof (round_half_away_near ((origin_longitude - center) / 360)) as Hn.
  fold turns in Hn. apply Qabs_Qle_condition in Hn.
  assert (E : ((origin_longitude - center) / 360 * 360
               == origin_longitude - center)%Q) by field.
  assert (E2 : (((min_x lonlat_box + 360 * inject_Z turns) +
                 (max_x lonlat_box + 360 * inject_Z turns)) / 2
                == center + 360 * inject_Z turns)%Q)
    by (unfold center; field).
  rewrite E2. apply Qabs_Qle_condition.
  set (q := ((origin_longitude - center) / 360)%Q) in *.
  set (t := inject_Z turns) in *.
  clearbody q t. split; lra.
Qed.

End LonlatFacts.

(** ** Theorems on the driver *)

Module DriverFacts.
Import Driver.

Section Facts.
Context {F : Type} `{DoubleOps F}.
Variable neg_max_double : F.
Variable list_file_words : string -> list string.
Variable disk : string -> option (FileInfo F).
Variable processed_proj4 : string -> string.
Variable mosaic_size : Options F -> Result (Z * Z).

Local Abbreviation handle_arguments :=
  (handle_arguments neg_max_double list_file_words).
Local Abbreviation main_open :=
  (main_open neg_max_double list_file_words disk processed_proj4).
Local Abbreviation main_measure := (main_measure mosaic_size).
Local Abbreviation main :=
  (main neg_max_double list_file_words disk processed_proj4 mosaic_size).

Lemma bind_throw {A B} (m : @M F A) (k : A -> @M F B) t e :
  m = (t, Throw e) -> bind m k = (t, Throw e).
Proof. intros ->. reflexivity. Qed.

Lemma bind_ok {A B} (m : @M F A) (k : A -> @M F B) t a :
  m = (t, Ok a) -> bind m k = (t ++ fst (k a), snd (k a)).
Proof. intros ->. simpl. destruct (k a). reflexivity. Qed.

Lemma bind_trace {A B} (P : Event F -> bool) (m : @M F A) (k : A -> @M F B) :
  forallb P (fst m) = true ->
  (forall a, forallb P (fst (k a)) = true) ->
  forallb P (fst (bind m k)) = true.
Proof.
  destruct m as [t [a|e]]; simpl; intros Ht Hk; [|exact Ht].
  specialize (Hk a). destruct (k a) as [t' r]. simpl in *.
  rewrite forallb_app, Ht, Hk. reflexivity.
Qed.

Ltac trace :=
  lazymatch goal with
  | |- forallb _ (fst (bind _ _)) = true =>
      apply bind_trace; [trace | intros; trace]
  | |- forallb _ (fst (throw_if ?c _)) = true => destruct c; reflexivity
  | |- forallb _ (fst (if ?b then _ else _)) = true => destruct b; trace
  | |- forallb _ (fst (match ?x with _ => _ end)) = true =>
      destruct x; trace
  | |- _ => reflexivity
  end.

Lemma handle_arguments_no_raster opt unregistered nodata_given :
  no_raster_io (fst (handle_arguments opt unregistered nodata_given)) = true.
Proof. unfold no_raster_io, Driver.handle_arguments. trace. Qed.

Lemma handle_arguments_no_write opt unregistered nodata_given :
  no_write (fst (handle_arguments opt unregistered nodata_given)) = true.
Proof. unfold no_write, Driver.handle_arguments. trace. Qed.

Lemma throw_if_true_bind {B} msg (k : unit -> @M F B) :
  bind (throw_if true msg) k = ([], Throw (ArgumentErr msg)).
Proof. reflexivity. Qed.

Lemma throw_if_false_bind {B} msg (k : unit -> @M F B) :
  bind (throw_if false msg) k = k tt.
Proof. cbn. destruct (k tt). reflexivity. Qed.

(** Each of the argument errors makes [handle_arguments] throw. *)
Lemma handle_arguments_throws opt unregistered nodata_given :
  invalid_arguments opt || no_input_dems list_file_words opt unregistered
  = true ->
  exists t msg,
    handle_arguments opt unregistered nodata_given
    = (t, Throw (ArgumentErr msg)).
Proof.
  unfold invalid_arguments, no_input_dems, Driver.handle_arguments.
  intros Herr.
  repeat lazymatch goal with
         | |- exists t msg, bind (throw_if ?c _) _ = _ =>
             destruct c eqn:?;
             [rewrite throw_if_true_bind; eauto
             |rewrite throw_if_false_bind]
         end.
  cbn in Herr.
  destruct (negb (dem_list_file opt =? "")%string).
  - destruct (negb (is_empty unregistered)); [cbn; eauto|].
    rewrite Herr. cbn. eauto.
  - rewrite Herr. cbn. eauto.
Qed.

Lemma main_of_throw opt0 unregistered nodata_given t msg :
  handle_arguments opt0 unregistered nodata_given
  = (t, Throw (ArgumentErr msg)) ->
  main opt0 unregistered nodata_given
  = (t ++ [EvPrint msg], fatal_exit_status).
Proof.
  intros Hthrow. unfold Driver.main, Driver.main_open.
  rewrite (bind_throw _ _ _ _ (bind_throw _ _ _ _ Hthrow)). reflexivity.
Qed.

(** The projection check: what [main] does when it fails. *)
Lemma main_of_projection_error opt0 unregistered nodata_given t0 opt info :
  projection_error neg_max_double list_file_words disk processed_proj4
                   opt0 unregistered nodata_given t0 opt info ->
  let first := hd ""%string (dem_files opt) in
  exists v msg,
    main opt0 unregistered nodata_given
    = ((t0 ++ (if negb (has_out_nodata opt) then [EvOpenRaster first]
               else []) ++
        [EvPrintValue "Using output no-data value: " v; EvReadGeoref first])
       ++ [EvPrint msg],
       fatal_exit_status).
Proof.
  intros [Hargs [Hdisk [p [Hproj Hchg]]]] first.
  unfold projection_change_without_resolution in Hchg.
  unfold Driver.main, Driver.main_open. rewrite Hargs.
  unfold open_raster, read_georef. subst first.
  cbn beta iota delta [bind].
  revert Hdisk.
  destruct (disk (hd ""%string (dem_files opt))) as [i|]; [|discriminate].
  intros Hdisk. inversion Hdisk; subst i. clear Hdisk.
  revert Hproj. destruct (fi_proj4 info) as [q|]; [|discriminate].
  intros Hproj. inversion Hproj; subst q. clear Hproj.
  destruct (negb (has_out_nodata opt)); cbn;
    destruct (fi_nodata info); cbn;
    destruct (negb (target_srs_string opt =? "")%string); cbn in *;
    rewrite Hchg; cbn; do 2 eexists;
    rewrite <- ?app_assoc; cbn; reflexivity.
Qed.

(** C6, amended: each configuration error ends the run with a fatal error
    and a non-zero exit code before any tile is written.  For the errors of
    the arguments (exclusive resolution flags, empty prefix, zero threads,
    negative erode or blending length, non-positive tile size, draft mode
    with erosion, negative projected tile size, no input DEMs) no raster
    file has been touched; for a change of projection without a resolution
    the only raster accesses are the opening of the first DEM for its
    no-data value and the reading of its georeference. *)
Theorem configuration_errors_fatal opt0 unregistered nodata_given
        t0 opt info :
  invalid_arguments opt0 || no_input_dems list_file_words opt0 unregistered
  = true \/
  projection_error neg_max_double list_file_words disk processed_proj4
                   opt0 unregistered nodata_given t0 opt info ->
  exists t msg,
    main opt0 unregistered nodata_given
    = (t ++ [EvPrint msg], fatal_exit_status) /\
    fatal_exit_status <> 0 /\
    no_write t = true /\
    (invalid_arguments opt0 || no_input_dems list_file_words opt0 unregistered
     = true -> no_raster_io t = true) /\
    (forall ev, In ev t -> is_raster_io ev = true ->
                ev = EvOpenRaster (hd ""%string (dem_files opt)) \/
                ev = EvReadGeoref (hd ""%string (dem_files opt))).
Proof.
  intros [Hargs | Hproj].
  - destruct (handle_arguments_throws opt0 unregistered nodata_given Hargs)
      as [t [msg Hthrow]].
    exists t, msg.
    pose proof (handle_arguments_no_raster opt0 unregistered nodata_given)
      as Hnr.
    pose proof (handle_arguments_no_write opt0 unregistered nodata_given)
      as Hnw.
    rewrite Hthrow in Hnr, Hnw. simpl in Hnr, Hnw.
    split; [apply main_of_throw, Hthrow|].
    split; [discriminate|]. split; [exact Hnw|]. split; [intros _; exact Hnr|].
    intros ev Hin Hio. unfold no_raster_io in Hnr.
    rewrite forallb_forall in Hnr. specialize (Hnr ev Hin).
    rewrite Hio in Hnr. discriminate.
  - destruct (main_of_projection_error _ _ _ _ _ _ Hproj) as [v [msg Hmain]].
    destruct Hproj as [Hha _].
    pose proof (handle_arguments_no_raster opt0 unregistered nodata_given)
      as Hnr.
    pose proof (handle_arguments_no_write opt0 unregistered nodata_given)
      as Hnw.
    rewrite Hha in Hnr, Hnw. simpl in Hnr, Hnw.
    eexists. exists msg. split; [exact Hmain|].
    split; [discriminate|]. split; [|split].
    + unfold no_write in *. rewrite !forallb_app, Hnw.
      destruct (negb (has_out_nodata opt)); reflexivity.
    + intros Hargs.
      destruct (handle_arguments_throws opt0 unregistered nodata_given Hargs)
        as [t [m Hthrow]]. congruence.
    + intros ev Hin Hio. rewrite !in_app_iff in Hin.
      destruct Hin as [Hin | [Hin | Hin]].
      * unfold no_raster_io in Hnr. rewrite forallb_forall in Hnr.
        specialize (Hnr ev Hin). rewrite Hio in Hnr. discriminate.
      * destruct (negb (has_out_nodata opt)); [|destruct Hin].
        destruct Hin as [<- | []]. left. reflexivity.
      * destruct Hin as [<- | [<- | []]]; [discriminate|].
        right. reflexivity.
Qed.

Lemma main_open_no_write opt0 unregistered nodata_given :
  no_write (fst (main_open opt0 unregistered nodata_given)) = true.
Proof.
  unfold no_write, Driver.main_open. apply bind_trace.
  - apply handle_arguments_no_write.
  - intros opt. unfold open_raster, read_georef. trace.
Qed.

Lemma main_measure_no_write os :
  no_write (fst (main_measure os)) = true.
Proof. unfold no_write, Driver.main_measure, lift. trace. Qed.

(** C7: when the run reaches the tile stage with a tile index that is at
    least the tile count, the tile stage only prints the size, the count and
    the diagnostic "Tile with index: <index> is out of bounds.", no tile is
    written in the whole run, and the exit code is 0. *)
Theorem tile_index_out_of_bounds opt0 unregistered nodata_given
        t1 os t2 opt ncols nrows :
  main_open opt0 unregistered nodata_given = (t1, Ok os) ->
  main_measure os = (t2, Ok (opt, (ncols, nrows))) ->
  tile_index opt >= Tiles.num_tiles ncols nrows (tile_size opt) ->
  main opt0 unregistered nodata_given
  = (t1 ++ t2 ++
     [EvPrint (size_message ncols nrows);
      EvPrint (count_message (Tiles.num_tiles_x ncols (tile_size opt))
                             (Tiles.num_tiles_y nrows (tile_size opt)));
      EvPrint ("Tile with index: " ++ show (tile_index opt) ++
               " is out of bounds.")],
     0) /\
  no_write (fst (main opt0 unregistered nodata_given)) = true /\
  (forall name box,
      ~ In (EvWriteTile name box)
           (fst (main opt0 unregistered nodata_given))).
Proof.
  intros Hopen Hmeasure Hidx.
  assert (Hmain : main opt0 unregistered nodata_given
    = (t1 ++ t2 ++
       [EvPrint (size_message ncols nrows);
        EvPrint (count_message (Tiles.num_tiles_x ncols (tile_size opt))
                               (Tiles.num_tiles_y nrows (tile_size opt)));
        EvPrint ("Tile with index: " ++ show (tile_index opt) ++
                 " is out of bounds.")],
       0)).
  { unfold Driver.main. rewrite (bind_ok _ _ _ _ Hopen).
    rewrite (bind_ok _ _ _ _ Hmeasure). unfold main_tiles.
    unfold Tiles.num_tiles in Hidx.
    destruct (Z.geb_spec (tile_index opt)
                (Tiles.num_tiles_x ncols (tile_size opt) *
                 Tiles.num_tiles_y nrows (tile_size opt))); [|lia].
    reflexivity. }
  assert (Hnw : no_write (fst (main opt0 unregistered nodata_given)) = true).
  { rewrite Hmain. simpl.
    pose proof (main_open_no_write opt0 unregistered nodata_given) as H1.
    pose proof (main_measure_no_write os) as H2.
    rewrite Hopen in H1. rewrite Hmeasure in H2. simpl in H1, H2.
    unfold no_write in *. rewrite !forallb_app, H1, H2. reflexivity. }
  split; [exact Hmain|]. split; [exact Hnw|].
  intros name box Hin. unfold no_write in Hnw.
  rewrite forallb_forall in Hnw. specialize (Hnw _ Hin). discriminate Hnw.
Qed.

Lemma for_each_trace {A} (l : list A) (body : A -> @M F unit) :
  (forall x, snd (body x) = Ok tt) ->
  for_each l body = (flat_map (fun x => fst (body x)) l, Ok tt).
Proof.
  intros Hok. induction l as [|x l IH]; [reflexivity|].
  cbn [for_each flat_map]. specialize (Hok x).
  destruct (body x) as [tx rx]. cbn in Hok. subst rx.
  cbn. rewrite IH. reflexivity.
Qed.

Lemma write_tile_ok opt ncols nrows nty id :
  snd (@write_tile F opt ncols nrows nty id) = Ok tt.
Proof.
  unfold write_tile.
  destruct ((bwidth _ =? 0) || (bheight _ =? 0)); reflexivity.
Qed.

(** The tile stage when the tile index is below the tile count. *)
Lemma main_tiles_loop (opt : Options F) (ncols nrows : Z) :
  tile_index opt < Tiles.num_tiles ncols nrows (tile_size opt) ->
  main_tiles (opt, (ncols, nrows))
  = ([EvPrint (size_message ncols nrows);
      EvPrint (count_message (Tiles.num_tiles_x ncols (tile_size opt))
                             (Tiles.num_tiles_y nrows (tile_size opt)))] ++
     flat_map (fun id =>
                 fst (write_tile opt ncols nrows
                        (Tiles.num_tiles_y nrows (tile_size opt)) id))
              (selected_tiles (tile_index opt)
                 (Tiles.num_tiles ncols nrows (tile_size opt))),
     Ok 0).
Proof.
  intros Hidx. unfold main_tiles.
  fold (Tiles.num_tiles ncols nrows (tile_size opt)).
  destruct (Z.geb_spec (tile_index opt)
              (Tiles.num_tiles ncols nrows (tile_size opt))); [lia|].
  rewrite (for_each_trace _ _ (write_tile_ok opt ncols nrows _)).
  cbn. rewrite app_nil_r. reflexivity.
Qed.

(** C10: every negative tile index selects the tile ids 0, ..., num_tiles-1,
    and the tile stage goes through all of them in that order: after the
    size and count messages its output is, for each id in turn, either the
    message that the empty tile is skipped or the message that the tile is
    written followed by the write of the cropped tile box under the tile's
    name; it returns 0. *)
Theorem negative_tile_index_selects_all (opt : Options F) (ncols nrows : Z) :
  tile_index opt < 0 ->
  let nty := Tiles.num_tiles_y nrows (tile_size opt) in
  let n := Tiles.num_tiles ncols nrows (tile_size opt) in
  let ids := map Z.of_nat (seq 0 (Z.to_nat n)) in
  let tile_events := fun id =>
    let box := Tiles.cropped_tile_box id nty (tile_size opt) ncols nrows in
    let name := (out_prefix opt ++ "-tile-" ++ show id ++ ".tif")%string in
    if (bwidth box =? 0) || (bheight box =? 0)
    then [EvPrint ("Skip writing empty image: " ++ name)]
    else [EvPrint ("Writing: " ++ name); EvWriteTile name box] in
  1 <= n /\
  selected_tiles (tile_index opt) n = ids /\
  (forall id, In id ids <-> 0 <= id <= n - 1) /\
  main_tiles (opt, (ncols, nrows))
  = ([EvPrint (size_message ncols nrows);
      EvPrint (count_message (Tiles.num_tiles_x ncols (tile_size opt)) nty)]
     ++ flat_map tile_events ids,
     Ok 0).
Proof.
  intros Hneg nty n ids tile_events.
  assert (Hsel : selected_tiles (tile_index opt) n = ids).
  { unfold selected_tiles, Tiles.tile_ids, ids.
    destruct (Z.ltb_spec (tile_index opt) 0); [|lia].
    rewrite Z.sub_0_r. apply map_ext. intros k. lia. }
  assert (Hn : 1 <= n).
  { unfold n, Tiles.num_tiles, Tiles.num_tiles_x, Tiles.num_tiles_y.
    pose proof (TilesFacts.num_tiles_axis_pos ncols (tile_size opt)).
    pose proof (TilesFacts.num_tiles_axis_pos nrows (tile_size opt)).
    nia. }
  split; [exact Hn|]. split; [exact Hsel|]. split.
  - intros id. pose proof (RangeFacts.range_In n id) as Hr.
    unfold range in Hr. unfold ids. rewrite Hr. lia.
  - rewrite (main_tiles_loop opt ncols nrows ltac:(fold n; lia)).
    fold n. fold nty. rewrite Hsel. f_equal. f_equal.
    apply flat_map_ext. intros id. unfold write_tile, tile_events, tile_name.
    destruct ((bwidth _ =? 0) || (bheight _ =? 0)); reflexivity.
Qed.

End Facts.
End DriverFacts.

(** ** The driver on concrete runs *)

Module DriverRuns.
Import Driver Scenarios.

(** The 2 x 1 mosaic with one-pixel tiles: tile 0 is written, tile 1 is
    skipped as empty, and no tile holds the pixel (1, 0). *)
Lemma second_tile_is_skipped :
  run one_pixel_tiles =
  ([EvCreateOutDir "out"; EvLogToFile "out"; EvOpenRaster "a.tif";
    EvPrintValue "Using output no-data value: " (-1)%Q;
    EvReadGeoref "a.tif"; EvPrint "Reading the input DEMs.";
    EvReadSources ["a.tif"%string];
    EvPrint "The size of the mosaic is 2 x 1 pixels.";
    EvPrint "Number of tiles: 2 x 1 = 2";
    EvPrint "Writing: out-tile-0.tif";
    EvWriteTile "out-tile-0.tif" (mkBBox2i 0 0 1 1);
    EvPrint "Skip writing empty image: out-tile-1.tif"], 0).
Proof. vm_compute. reflexivity. Qed.

(** C6 as stated fails for the projection check: with a target projection
    that differs from the first DEM's and no resolution, the run is fatal,
    but only after the first DEM has been opened and its georeference
    read. *)
Lemma projection_error_after_raster_access :
  run reproject_options =
  ([EvCreateOutDir "out"; EvLogToFile "out"; EvOpenRaster "a.tif";
    EvPrintValue "Using output no-data value: " (-1)%Q;
    EvReadGeoref "a.tif";
    EvPrint "Changing the projection was requested. The output DEM resolution must be specified via the --tr option."],
   fatal_exit_status) /\
  no_raster_io (fst (run reproject_options)) = false.
Proof. vm_compute. split; reflexivity. Qed.

(** Without an output prefix the run is fatal before any raster access. *)
Lemma configuration_errors_fatal_witness :
  exists t msg,
    run no_prefix_options = (t ++ [EvPrint msg], fatal_exit_status) /\
    no_raster_io t = true.
Proof.
  assert (Herr : invalid_arguments no_prefix_options
                 || no_input_dems (fun _ => []) no_prefix_options
                                  ["a.tif"%string] = true)
    by (vm_compute; reflexivity).
  destruct (DriverFacts.configuration_errors_fatal
              (-1)%Q (fun _ => []) one_dem_disk (fun srs => srs) two_by_one
              no_prefix_options ["a.tif"%string] false
              [] base_options (mkFileInfo None None 0%Q)
              (or_introl Herr))
    as [t [msg [Hmain [_ [_ [Hnr _]]]]]].
  exists t, msg. split; [exact Hmain|]. apply Hnr. exact Herr.
Defined.

(** Tile index 5 on a mosaic of two tiles. *)
Lemma tile_index_out_of_bounds_witness :
  run (with_tile_index one_pixel_tiles 5) =
  ([EvCreateOutDir "out"; EvLogToFile "out"; EvOpenRaster "a.tif";
    EvPrintValue "Using output no-data value: " (-1)%Q;
    EvReadGeoref "a.tif"; EvPrint "Reading the input DEMs.";
    EvReadSources ["a.tif"%string];
    EvPrint "The size of the mosaic is 2 x 1 pixels.";
    EvPrint "Number of tiles: 2 x 1 = 2";
    EvPrint "Tile with index: 5 is out of bounds."], 0) /\
  no_write (fst (run (with_tile_index one_pixel_tiles 5))) = true.
Proof.
  edestruct (DriverFacts.tile_index_out_of_bounds
               (-1)%Q (fun _ => []) one_dem_disk (fun srs => srs) two_by_one
               (with_tile_index one_pixel_tiles 5) ["a.tif"%string] false)
    as [Hmain [Hnw _]].
  - vm_compute. reflexivity.
  - vm_compute. reflexivity.
  - vm_compute. discriminate.
  - unfold run. split; [rewrite Hmain; reflexivity | exact Hnw].
Defined.

(** Tile index -7 on a mosaic of two tiles: both tile ids are gone through,
    tile 0 is written and tile 1 is skipped as empty. *)
Lemma negative_tile_index_selects_all_witness :
  selected_tiles (-7) (Tiles.num_tiles 2 1 1) = [0; 1] /\
  main_tiles (with_tile_index one_pixel_tiles (-7), (2, 1)) =
  ([EvPrint "The size of the mosaic is 2 x 1 pixels.";
    EvPrint "Number of tiles: 2 x 1 = 2";
    EvPrint "Writing: out-tile-0.tif";
    EvWriteTile "out-tile-0.tif" (mkBBox2i 0 0 1 1);
    EvPrint "Skip writing empty image: out-tile-1.tif"], Ok 0).
Proof.
  assert (Hneg : tile_index (with_tile_index one_pixel_tiles (-7)) < 0)
    by reflexivity.
  pose proof (DriverFacts.negative_tile_index_selects_all
                (with_tile_index one_pixel_tiles (-7)) 2 1 Hneg) as P.
  cbv zeta in P. destruct P as (_ & Hsel & _ & Hrun).
  split; [exact Hsel|]. rewrite Hrun. vm_compute. reflexivity.
Defined.

End DriverRuns.

(** ** More on the tile partition *)

Module TilesMore.
Import Tiles.

Lemma axis_count_spec (dim ts : Z) :
  0 < ts ->
  1 <= num_tiles_axis dim ts /\
  dim <= ts * num_tiles_axis dim ts /\
  forall m, 1 <= m -> dim <= ts * m -> num_tiles_axis dim ts <= m.
Proof.
  intros Hts. unfold num_tiles_axis.
  pose proof (TilesFacts.ceil_div_spec dim ts Hts) as Hc.
  destruct (Z.leb_spec (ceil_div dim ts) 0) as [Hle | Hgt].
  - split; [lia|]. split; [nia|]. intros m Hm _. exact Hm.
  - split; [lia|]. split; [lia|]. intros m Hm Hdim. nia.
Qed.

(** The tile count of an axis is the least count of at least one tile whose
    tiles reach the end of the axis. *)
Theorem num_tiles_axis_least (dim ts : Z) :
  0 < ts ->
  1 <= num_tiles_axis dim ts /\
  dim <= ts * num_tiles_axis dim ts /\
  forall m, 1 <= m -> dim <= ts * m -> num_tiles_axis dim ts <= m.
Proof. apply axis_count_spec. Qed.

Lemma num_tiles_axis_least_witness :
  num_tiles_axis 2500 1000 = 3 /\ 2500 <= 1000 * num_tiles_axis 2500 1000.
Proof.
  destruct (num_tiles_axis_least 2500 1000 ltac:(lia)) as [_ [Hreach _]].
  split; [reflexivity | exact Hreach].
Defined.

(** The index pair of a tile id: x is the remainder and y the quotient of the
    division by the number of tiles in y. *)
Lemma tile_index_div_mod (id nty : Z) :
  0 <= id -> 1 <= nty ->
  tile_index_y id nty = id / nty /\ tile_index_x id nty = id mod nty.
Proof.
  intros Hid Hn. unfold tile_index_x, tile_index_y.
  rewrite Z.quot_div_nonneg by lia.
  pose proof (Z.div_mod id nty ltac:(lia)). split; lia.
Qed.

Lemma tile_box_contains (id nty ts px py : Z) :
  bcontains (tile_box id nty ts) px py = true <->
  (tile_index_x id nty * ts <= px < tile_index_x id nty * ts + ts /\
   tile_index_y id nty * ts <= py < tile_index_y id nty * ts + ts).
Proof.
  unfold tile_box, BBox2i_xywh, bcontains. simpl.
  rewrite !andb_true_iff, !Z.leb_le, !Z.ltb_lt. lia.
Qed.

Lemma in_strip (k ts p : Z) : 0 < ts -> k * ts <= p < k * ts + ts -> k = p / ts.
Proof.
  intros Hts Hp. apply (Z.div_unique p ts k (p - k * ts)); lia.
Qed.

Lemma same_pixel_same_tile (nty ts i j px py : Z) :
  1 <= nty -> 0 < ts -> 0 <= i -> 0 <= j ->
  bcontains (tile_box i nty ts) px py = true ->
  bcontains (tile_box j nty ts) px py = true ->
  i = j.
Proof.
  intros Hn Hts Hi Hj Hbi Hbj.
  apply tile_box_contains in Hbi. apply tile_box_contains in Hbj.
  destruct Hbi as [Hxi Hyi]. destruct Hbj as [Hxj Hyj].
  apply (in_strip _ ts px Hts) in Hxi. apply (in_strip _ ts px Hts) in Hxj.
  apply (in_strip _ ts py Hts) in Hyi. apply (in_strip _ ts py Hts) in Hyj.
  destruct (tile_index_div_mod i nty Hi Hn) as [Eyi Exi].
  destruct (tile_index_div_mod j nty Hj Hn) as [Eyj Exj].
  rewrite (Z.div_mod i nty) by lia. rewrite (Z.div_mod j nty) by lia.
  congruence.
Qed.

(** Two different tile ids never share a pixel: a pixel of one tile box lies
    in the box of no other tile id. *)
Theorem tiles_do_not_overlap (nty ts i j px py : Z) :
  1 <= nty -> 0 < ts -> 0 <= i -> 0 <= j -> i <> j ->
  bcontains (tile_box i nty ts) px py = true ->
  bcontains (tile_box j nty ts) px py = false.
Proof.
  intros Hn Hts Hi Hj Hij Hbi.
  destruct (bcontains (tile_box j nty ts) px py) eqn:Hbj; [|reflexivity].
  exfalso. apply Hij.
  exact (same_pixel_same_tile nty ts i j px py Hn Hts Hi Hj Hbi Hbj).
Qed.

Lemma tiles_do_not_overlap_witness :
  bcontains (tile_box 1 2 10) 13 4 = true /\
  bcontains (tile_box 3 2 10) 13 4 = false.
Proof.
  split; [reflexivity|].
  apply (tiles_do_not_overlap 2 10 1 3 13 4); try lia. reflexivity.
Defined.

(** [BBox::crop] keeps exactly the pixels of both boxes. *)
Lemma bcrop_contains (b o : BBox2i) (px py : Z) :
  bcontains (bcrop b o) px py = bcontains b px py && bcontains o px py.
Proof.
  apply eq_true_iff_eq. unfold bcrop, bcontains. cbv zeta.
  cbn [bmin_x bmin_y bmax_x bmax_y]. rewrite !Z.gtb_ltb.
  destruct (Z.ltb_spec (bmin_x b) (bmin_x o));
    destruct (Z.ltb_spec (bmin_y b) (bmin_y o));
    destruct (Z.ltb_spec (bmax_x o) (bmax_x b));
    destruct (Z.ltb_spec (bmax_y o) (bmax_y b));
    repeat match goal with
           | |- context [if ?a <? ?c then _ else _] =>
               destruct (Z.ltb_spec a c)
           end;
    rewrite !andb_true_iff, !Z.leb_le, !Z.ltb_lt; lia.
Qed.

(** A cropped box has no negative extent. *)
Lemma bcrop_extent (b o : BBox2i) :
  0 <= bwidth (bcrop b o) /\ 0 <= bheight (bcrop b o).
Proof.
  unfold bcrop, bwidth, bheight. cbv zeta.
  cbn [bmin_x bmin_y bmax_x bmax_y]. rewrite !Z.gtb_ltb.
  destruct (Z.ltb_spec (bmin_x b) (bmin_x o));
    destruct (Z.ltb_spec (bmin_y b) (bmin_y o));
    destruct (Z.ltb_spec (bmax_x o) (bmax_x b));
    destruct (Z.ltb_spec (bmax_y o) (bmax_y b));
    repeat match goal with
           | |- context [if ?a <? ?c then _ else _] =>
               destruct (Z.ltb_spec a c)
           end; lia.
Qed.

(** A cropped tile box holds exactly the pixels of the tile that are pixels
    of the mosaic: a tile never reaches outside the mosaic. *)
Theorem cropped_tile_within_mosaic (id nty ts ncols nrows px py : Z) :
  bcontains (cropped_tile_box id nty ts ncols nrows) px py = true <->
  (bcontains (tile_box id nty ts) px py = true /\
   0 <= px < ncols /\ 0 <= py < nrows).
Proof.
  unfold cropped_tile_box. rewrite bcrop_contains, andb_true_iff.
  assert (Hm : bcontains (mosaic_box ncols nrows) px py = true <->
               (0 <= px < ncols /\ 0 <= py < nrows)).
  { unfold mosaic_box, BBox2i_xywh, bcontains. simpl.
    rewrite !andb_true_iff, !Z.leb_le, !Z.ltb_lt. lia. }
  rewrite Hm. tauto.
Qed.

(** The pixels that some tile box holds: x below the number of tiles in y
    times the tile size, y below the number of tiles in x times the tile
    size. *)
Lemma covered_iff (ncols nrows ts px py : Z) :
  0 < ts ->
  covered (all_tile_boxes ncols nrows ts) px py = true <->
  (0 <= px < num_tiles_y nrows ts * ts /\
   0 <= py < num_tiles_x ncols ts * ts).
Proof.
  intros Hts. unfold covered, all_tile_boxes, num_tiles.
  set (ntx := num_tiles_x ncols ts). set (nty := num_tiles_y nrows ts).
  assert (Hntx : 1 <= ntx) by apply TilesFacts.num_tiles_axis_pos.
  assert (Hnty : 1 <= nty) by apply TilesFacts.num_tiles_axis_pos.
  rewrite existsb_exists. split.
  - intros [box [Hin Hb]]. apply in_map_iff in Hin.
    destruct Hin as [id [<- Hid]]. apply RangeFacts.tile_ids_In in Hid.
    apply tile_box_contains in Hb.
    destruct (TilesFacts.tile_index_ranges id ntx nty Hnty Hid) as [Hx Hy].
    nia.
  - intros [Hpx Hpy].
    assert (Hx0 : 0 <= px / ts < nty).
    { split; [apply Z.div_pos; lia|]. apply Z.div_lt_upper_bound; lia. }
    assert (Hy0 : 0 <= py / ts < ntx).
    { split; [apply Z.div_pos; lia|]. apply Z.div_lt_upper_bound; lia. }
    set (id := py / ts * nty + px / ts).
    assert (Hid : 0 <= id < ntx * nty) by (unfold id; nia).
    exists (tile_box id nty ts). split.
    + apply in_map_iff. exists id. split; [reflexivity|].
      apply RangeFacts.tile_ids_In. lia.
    + apply tile_box_contains.
      destruct (tile_index_div_mod id nty ltac:(lia) Hnty) as [Ey Ex].
      assert (Eq : id / nty = py / ts).
      { symmetry. apply (Z.div_unique id nty (py / ts) (px / ts));
          unfold id; lia. }
      assert (Er : id mod nty = px / ts).
      { symmetry. apply (Z.mod_unique id nty (py / ts) (px / ts));
          unfold id; lia. }
      rewrite Ex, Ey, Eq, Er.
      pose proof (Z.div_mod px ts ltac:(lia)).
      pose proof (Z.mod_pos_bound px ts Hts).
      pose proof (Z.div_mod py ts ltac:(lia)).
      pose proof (Z.mod_pos_bound py ts Hts).
      lia.
Qed.

(** The tile boxes of a non-empty mosaic hold every pixel of the mosaic
    exactly when there are as many tiles in x as in y. *)
Theorem tiles_cover_iff_counts_equal (ncols nrows ts : Z) :
  0 < ts -> 0 < ncols -> 0 < nrows ->
  (forall px py, 0 <= px < ncols -> 0 <= py < nrows ->
                 covered (all_tile_boxes ncols nrows ts) px py = true) <->
  num_tiles_x ncols ts = num_tiles_y nrows ts.
Proof.
  intros Hts Hc Hr.
  destruct (axis_count_spec ncols ts Hts) as [Hx1 [Hxr Hxm]].
  destruct (axis_count_spec nrows ts Hts) as [Hy1 [Hyr Hym]].
  fold (num_tiles_x ncols ts) in *. fold (num_tiles_y nrows ts) in *.
  split.
  - intros Hcov.
    pose proof (Hcov (ncols - 1) 0 ltac:(lia) ltac:(lia)) as H1.
    pose proof (Hcov 0 (nrows - 1) ltac:(lia) ltac:(lia)) as H2.
    apply (covered_iff _ _ _ _ _ Hts) in H1.
    apply (covered_iff _ _ _ _ _ Hts) in H2.
    assert (num_tiles_x ncols ts <= num_tiles_y nrows ts)
      by (apply Hxm; lia).
    assert (num_tiles_y nrows ts <= num_tiles_x ncols ts)
      by (apply Hym; lia).
    lia.
  - intros Heq px py Hpx Hpy. apply (covered_iff _ _ _ _ _ Hts).
    rewrite <- Heq at 1. rewrite Heq at 2. nia.
Qed.

Lemma tiles_cover_iff_counts_equal_witness :
  covered (all_tile_boxes 3 3 2) 2 2 = true.
Proof.
  apply (proj2 (tiles_cover_iff_counts_equal 3 3 2 ltac:(lia) ltac:(lia)
                                             ltac:(lia)));
    [reflexivity | lia | lia].
Defined.

End TilesMore.

(** ** More on the driver *)

Module DriverMore.
Import Driver DriverViews.

Section More.
Context {F : Type} `{DoubleOps F}.
Variable neg_max_double : F.
Variable list_file_words : string -> list string.
Variable disk : string -> option (FileInfo F).
Variable processed_proj4 : string -> string.
Variable mosaic_size : Options F -> Result (Z * Z).

Local Abbreviation handle_arguments :=
  (handle_arguments neg_max_double list_file_words).
Local Abbreviation main_open :=
  (main_open neg_max_double list_file_words disk processed_proj4).
Local Abbreviation main_measure := (main_measure mosaic_size).
Local Abbreviation main :=
  (main neg_max_double list_file_words disk processed_proj4 mosaic_size).
Local Abbreviation arguments_accepted :=
  (arguments_accepted list_file_words).
Local Abbreviation accepted_options :=
  (accepted_options neg_max_double list_file_words).

Lemma accepted_result opt unregistered nodata_given :
  arguments_accepted opt unregistered = true ->
  handle_arguments opt unregistered nodata_given
  = (accepted_trace opt, Ok (accepted_options opt unregistered nodata_given)).
Proof.
  unfold DriverViews.arguments_accepted, invalid_arguments, no_input_dems.
  rewrite !andb_true_iff, !negb_true_iff, !orb_false_iff.
  intros [[[[[[[[[H1 H2] H3] H4] H5] H6] H7] H8] Hin] Hlist].
  unfold Driver.handle_arguments.
  rewrite H1, DriverFacts.throw_if_false_bind.
  rewrite H2, DriverFacts.throw_if_false_bind.
  rewrite H3, DriverFacts.throw_if_false_bind.
  rewrite H4, DriverFacts.throw_if_false_bind.
  rewrite H5, DriverFacts.throw_if_false_bind.
  rewrite H6, DriverFacts.throw_if_false_bind.
  rewrite H7, DriverFacts.throw_if_false_bind.
  rewrite H8, DriverFacts.throw_if_false_bind.
  unfold accepted_trace, DriverViews.accepted_options, accepted_files.
  destruct (negb (dem_list_file opt =? "")%string) eqn:Hl.
  - apply negb_true_iff in Hl. rewrite Hl in Hlist. simpl in Hlist.
    rewrite Hlist, Hin. cbn. destruct (negb nodata_given); reflexivity.
  - rewrite Hin. cbn. destruct (negb nodata_given); reflexivity.
Qed.

Lemma rejected_result opt unregistered nodata_given :
  arguments_accepted opt unregistered = false ->
  exists t msg,
    handle_arguments opt unregistered nodata_given
    = (t, Throw (ArgumentErr msg)) /\
    forallb (fun ev => negb (touches_output ev)) t = true.
Proof.
  unfold DriverViews.arguments_accepted, invalid_arguments, no_input_dems,
    Driver.handle_arguments.
  intros Hrej.
  repeat lazymatch goal with
         | |- exists t msg, bind (throw_if ?c _) _ = _ /\ _ =>
             destruct c eqn:?;
             [rewrite DriverFacts.throw_if_true_bind;
              do 2 eexists; split; reflexivity
             |rewrite DriverFacts.throw_if_false_bind]
         end.
  cbn in Hrej.
  destruct (negb (dem_list_file opt =? "")%string) eqn:Hl.
  - apply negb_true_iff in Hl. rewrite Hl in Hrej. cbn in Hrej.
    destruct (is_empty unregistered); cbn;
      [|do 2 eexists; split; reflexivity].
    rewrite andb_true_r in Hrej. apply negb_false_iff in Hrej.
    rewrite Hrej. cbn. do 2 eexists; split; reflexivity.
  - apply negb_false_iff in Hl. rewrite Hl in Hrej. cbn in Hrej.
    rewrite andb_true_r in Hrej. apply negb_false_iff in Hrej.
    rewrite Hrej. cbn. do 2 eexists; split; reflexivity.
Qed.

(** [handle_arguments] either accepts, and then it has at most read the list
    file, created the output directory and opened the log, and it hands on
    the DEM files of the list or of the command line; or it throws an
    argument error before it has created the output directory or the log.  A
    list file together with positional arguments is such an error. *)
Theorem handle_arguments_outcome opt unregistered nodata_given :
  if arguments_accepted opt unregistered
  then handle_arguments opt unregistered nodata_given
       = (accepted_trace opt,
          Ok (accepted_options opt unregistered nodata_given))
  else exists t msg,
      handle_arguments opt unregistered nodata_given
      = (t, Throw (ArgumentErr msg)) /\
      forallb (fun ev => negb (touches_output ev)) t = true.
Proof.
  destruct (arguments_accepted opt unregistered) eqn:E.
  - apply accepted_result, E.
  - apply rejected_result, E.
Qed.

Local Abbreviation options_with_target :=
  (options_with_target processed_proj4).

(** [main_open] after [handle_arguments] has accepted and the first DEM is
    on the disk. *)
Lemma main_open_steps opt0 unregistered nodata_given t0 opt info :
  handle_arguments opt0 unregistered nodata_given = (t0, Ok opt) ->
  disk (hd ""%string (dem_files opt)) = Some info ->
  main_open opt0 unregistered nodata_given
  = (t0 ++ opening_trace opt info,
     match fi_proj4 info with
     | None =>
         Throw (ArgumentErr
                  (no_georeference_message (hd ""%string (dem_files opt))))
     | Some p =>
         if projection_change_without_resolution processed_proj4 opt p
         then Throw (ArgumentErr projection_message)
         else Ok (options_with_target (options_with_nodata opt info),
                  resolved_spacing opt info)
     end).
Proof.
  intros Hargs Hdisk.
  unfold Driver.main_open. rewrite Hargs.
  unfold open_raster, read_georef, projection_change_without_resolution,
    opening_trace, DriverViews.options_with_target, options_with_nodata,
    resolved_spacing, no_georeference_message, projection_message.
  cbn beta iota delta [bind].
  revert Hdisk.
  destruct (disk (hd ""%string (dem_files opt))) as [i|]; [|discriminate].
  intros Hdisk. inversion Hdisk; subst i. clear Hdisk.
  destruct (fi_proj4 info) as [p|];
    destruct (negb (has_out_nodata opt)); cbn;
    destruct (fi_nodata info); cbn;
    destruct (negb (target_srs_string opt =? "")%string); cbn;
    rewrite <- ?app_assoc; cbn;
    try reflexivity;
    match goal with
    | |- context [throw_if ?c _] => destruct c; cbn;
                                    rewrite <- ?app_assoc; reflexivity
    end.
Qed.

Local Abbreviation accepted_files := (accepted_files list_file_words).
Local Abbreviation resolved_nodata := (resolved_nodata neg_max_double).

Lemma accepted_options_fields opt unregistered nodata_given :
  let opt' := accepted_options opt unregistered nodata_given in
  dem_files opt' = accepted_files opt unregistered /\
  has_out_nodata opt' = nodata_given /\
  out_nodata_value opt'
  = (if nodata_given then out_nodata_value opt else neg_max_double) /\
  target_srs_string opt' = target_srs_string opt /\
  tr opt' = tr opt.
Proof.
  unfold DriverViews.accepted_options.
  destruct nodata_given; cbn; repeat split; reflexivity.
Qed.

Lemma accepted_of_ok opt0 unregistered nodata_given t0 opt :
  handle_arguments opt0 unregistered nodata_given = (t0, Ok opt) ->
  t0 = accepted_trace opt0 /\
  opt = accepted_options opt0 unregistered nodata_given.
Proof.
  intros Hok.
  destruct (arguments_accepted opt0 unregistered) eqn:E.
  - rewrite (accepted_result _ _ _ E) in Hok. inversion Hok. split; reflexivity.
  - destruct (rejected_result _ _ nodata_given E) as [t [msg [Hthrow _]]].
    congruence.
Qed.

Lemma main_open_needs_arguments opt0 unregistered nodata_given t r :
  main_open opt0 unregistered nodata_given = (t, Ok r) ->
  handle_arguments opt0 unregistered nodata_given
  = (accepted_trace opt0,
     Ok (accepted_options opt0 unregistered nodata_given)).
Proof.
  intros Hok.
  destruct (arguments_accepted opt0 unregistered) eqn:E.
  - apply accepted_result, E.
  - destruct (rejected_result _ _ nodata_given E) as [t' [msg [Hthrow _]]].
    unfold Driver.main_open in Hok.
    rewrite (DriverFacts.bind_throw _ _ _ _ Hthrow) in Hok. discriminate.
Qed.

(** The output no-data value of a run that gets past the opening of [main]:
    the user's value when [--output-nodata-value] was given, and then the
    first DEM is not opened for it; otherwise the first DEM's no-data value,
    or the lowest double when that DEM has none.  It is the value that is
    reported. *)
Theorem output_nodata_resolution opt0 unregistered nodata_given
        t opt spacing info :
  disk (hd ""%string (accepted_files opt0 unregistered)) = Some info ->
  main_open opt0 unregistered nodata_given = (t, Ok (opt, spacing)) ->
  out_nodata_value opt
  = resolved_nodata nodata_given (out_nodata_value opt0) info /\
  In (EvPrintValue "Using output no-data value: "
        (resolved_nodata nodata_given (out_nodata_value opt0) info)) t /\
  (In (EvOpenRaster (hd ""%string (accepted_files opt0 unregistered))) t
   <-> nodata_given = false).
Proof.
  intros Hdisk Hopen.
  pose proof (main_open_needs_arguments _ _ _ _ _ Hopen) as Hargs.
  destruct (accepted_options_fields opt0 unregistered nodata_given)
    as [Hfiles [Hhas [Hval _]]].
  cbv zeta in Hfiles, Hhas, Hval.
  rewrite <- Hfiles in Hdisk.
  rewrite (main_open_steps _ _ _ _ _ _ Hargs Hdisk) in Hopen.
  set (acc := accepted_options opt0 unregistered nodata_given) in *.
  assert (Hres : out_nodata_value (options_with_nodata acc info)
                 = resolved_nodata nodata_given (out_nodata_value opt0) info).
  { unfold options_with_nodata, DriverViews.resolved_nodata.
    rewrite Hhas. destruct nodata_given; cbn; [exact Hval|].
    destruct (fi_nodata info); [reflexivity | exact Hval]. }
  destruct (fi_proj4 info) as [p|]; [|discriminate].
  destruct (projection_change_without_resolution _ _ _); [discriminate|].
  inversion Hopen as [[Ht Hopt Hsp]]. clear Hopen.
  split; [|split].
  - rewrite <- Hres. unfold DriverViews.options_with_target.
    destruct (negb _); reflexivity.
  - apply in_or_app. right. unfold opening_trace.
    apply in_or_app. right. rewrite Hres. left. reflexivity.
  - rewrite <- Hfiles. unfold accepted_trace, opening_trace. rewrite Hhas.
    rewrite !in_app_iff. destruct nodata_given; cbn.
    + split; [|discriminate]. intros Hin. exfalso.
      repeat match goal with
             | Hx : _ \/ _ |- _ => destruct Hx
             | Hx : In _ (if ?b then _ else _) |- _ => destruct b
             | Hx : In _ (_ :: _) |- _ => destruct Hx
             | Hx : In _ [] |- _ => destruct Hx
             | Hx : _ = EvOpenRaster _ |- _ => discriminate Hx
             | Hx : False |- _ => destruct Hx
             end.
    + split; [reflexivity|]. intros _. right. left. left. reflexivity.
Qed.

Lemma projection_check_fields opt0 unregistered nodata_given p :
  projection_change_without_resolution processed_proj4
    (accepted_options opt0 unregistered nodata_given) p
  = projection_change_without_resolution processed_proj4 opt0 p.
Proof.
  unfold projection_change_without_resolution.
  destruct (accepted_options_fields opt0 unregistered nodata_given)
    as [_ [_ [_ [Htarget Htr]]]].
  cbv zeta in Htarget, Htr. rewrite Htarget, Htr. reflexivity.
Qed.

Lemma resolved_spacing_fields opt0 unregistered nodata_given info :
  resolved_spacing (accepted_options opt0 unregistered nodata_given) info
  = resolved_spacing opt0 info.
Proof.
  unfold resolved_spacing.
  destruct (accepted_options_fields opt0 unregistered nodata_given)
    as [_ [_ [_ [_ Htr]]]].
  cbv zeta in Htr. rewrite Htr. reflexivity.
Qed.

(** With accepted arguments and a first DEM that has a georeference, the
    opening of [main] succeeds exactly when no target projection is given,
    or the normalised target equals the first DEM's projection, or a
    positive resolution is given; the spacing is then the resolution if it
    is positive and the first DEM's spacing otherwise. *)
Theorem projection_accepted_iff opt0 unregistered nodata_given info p :
  arguments_accepted opt0 unregistered = true ->
  disk (hd ""%string (accepted_files opt0 unregistered)) = Some info ->
  fi_proj4 info = Some p ->
  (exists t opt,
      main_open opt0 unregistered nodata_given
      = (t, Ok (opt, resolved_spacing opt0 info))) <->
  projection_change_without_resolution processed_proj4 opt0 p = false.
Proof.
  intros Hacc Hdisk Hproj.
  pose proof (accepted_result _ _ nodata_given Hacc) as Hargs.
  destruct (accepted_options_fields opt0 unregistered nodata_given)
    as [Hfiles _]. cbv zeta in Hfiles. rewrite <- Hfiles in Hdisk.
  pose proof (main_open_steps _ _ _ _ _ _ Hargs Hdisk) as Hsteps.
  rewrite Hproj, projection_check_fields, resolved_spacing_fields in Hsteps.
  split.
  - intros [t [opt Hok]]. rewrite Hsteps in Hok.
    destruct (projection_change_without_resolution _ _ _);
      [discriminate | reflexivity].
  - intros Hno. rewrite Hno in Hsteps. eauto.
Qed.

(** A first DEM without a georeference ends the run with a fatal error that
    names the file, after that file alone has been touched. *)
Theorem missing_georeference_fatal opt0 unregistered nodata_given info :
  arguments_accepted opt0 unregistered = true ->
  disk (hd ""%string (accepted_files opt0 unregistered)) = Some info ->
  fi_proj4 info = None ->
  exists t,
    main opt0 unregistered nodata_given
    = (t ++ [EvPrint (no_georeference_message
                        (hd ""%string (accepted_files opt0 unregistered)))],
       fatal_exit_status) /\
    forall ev, In ev t -> is_raster_io ev = true ->
      ev = EvOpenRaster (hd ""%string (accepted_files opt0 unregistered)) \/
      ev = EvReadGeoref (hd ""%string (accepted_files opt0 unregistered)).
Proof.
  intros Hacc Hdisk Hproj.
  pose proof (accepted_result _ _ nodata_given Hacc) as Hargs.
  destruct (accepted_options_fields opt0 unregistered nodata_given)
    as [Hfiles _]. cbv zeta in Hfiles. rewrite <- Hfiles in Hdisk.
  pose proof (main_open_steps _ _ _ _ _ _ Hargs Hdisk) as Hsteps.
  rewrite Hproj, Hfiles in Hsteps.
  eexists. split.
  - unfold Driver.main. rewrite (DriverFacts.bind_throw _ _ _ _ Hsteps).
    reflexivity.
  - intros ev Hin Hio. rewrite <- Hfiles.
    unfold accepted_trace, opening_trace in Hin.
    repeat match goal with
           | Hx : In _ (_ ++ _) |- _ => apply in_app_or in Hx
           | Hx : _ \/ _ |- _ => destruct Hx
           | Hx : In _ (if ?b then _ else _) |- _ => destruct b
           | Hx : In _ (_ :: _) |- _ => destruct Hx
           | Hx : In _ [] |- _ => destruct Hx
           | Hx : False |- _ => destruct Hx
           | Hx : _ = ev |- _ => subst ev
           end; try discriminate; auto.
Qed.

(** The tile size the tiles are cut with is at least one pixel: a positive
    georeferenced tile size replaces the pixel tile size by the rounded
    quotient with the spacing, and either is raised to 1. *)
Theorem tile_size_at_least_one (opt : Options F) (spacing : F) t opt' size :
  main_measure (opt, spacing) = (t, Ok (opt', size)) ->
  1 <= tile_size opt' /\
  tile_size opt'
  = Z.max (if dltb dzero (geo_tile_size opt)
           then round_int (ddiv (geo_tile_size opt) spacing)
           else tile_size opt) 1 /\
  tile_index opt' = tile_index opt /\
  out_prefix opt' = out_prefix opt.
Proof.
  unfold Driver.main_measure, lift.
  destruct (dltb dzero (geo_tile_size opt)); cbn;
    match goal with
    | |- context [mosaic_size ?o] => destruct (mosaic_size o) as [sz|e]
    end; cbn; intros Hm; inversion Hm; subst; cbn; repeat split; lia.
Qed.

(** *** The tile stage *)

Lemma selected_tiles_In (i n id : Z) :
  In id (selected_tiles i n) <->
  (i < 0 /\ 0 <= id < n) \/ (0 <= i /\ id = i).
Proof.
  unfold selected_tiles. rewrite RangeFacts.tile_ids_In.
  destruct (Z.ltb_spec i 0); lia.
Qed.

Lemma written_tiles_nonzero (opt : Options F) (ncols nrows : Z) name box :
  let nty := Tiles.num_tiles_y nrows (tile_size opt) in
  let n := Tiles.num_tiles ncols nrows (tile_size opt) in
  In (EvWriteTile name box) (fst (main_tiles (opt, (ncols, nrows)))) <->
  exists id,
    0 <= id < n /\ (tile_index opt < 0 \/ id = tile_index opt) /\
    name = tile_name (out_prefix opt) id /\
    box = Tiles.cropped_tile_box id nty (tile_size opt) ncols nrows /\
    bwidth box <> 0 /\ bheight box <> 0.
Proof.
  intros nty n.
  destruct (Z.lt_ge_cases (tile_index opt) n) as [Hlt | Hge].
  - rewrite (DriverFacts.main_tiles_loop opt ncols nrows Hlt). cbn [fst].
    fold n. fold nty. rewrite in_app_iff, in_flat_map. split.
    + intros [Hin | [id [Hsel Hin]]].
      * destruct Hin as [Hin | [Hin | []]]; discriminate.
      * apply selected_tiles_In in Hsel. exists id.
        unfold write_tile in Hin.
        destruct (Z.eqb_spec (bwidth (Tiles.cropped_tile_box id nty
                                        (tile_size opt) ncols nrows)) 0);
          destruct (Z.eqb_spec (bheight (Tiles.cropped_tile_box id nty
                                        (tile_size opt) ncols nrows)) 0);
          cbn in Hin;
          repeat match goal with
                 | Hx : _ \/ _ |- _ => destruct Hx
                 | Hx : False |- _ => destruct Hx
                 | Hx : EvPrint _ = EvWriteTile _ _ |- _ => discriminate Hx
                 | Hx : EvWriteTile _ _ = EvWriteTile _ _ |- _ =>
                     inversion Hx; subst; clear Hx
                 end;
          repeat split; try assumption; try reflexivity; lia.
    + intros [id [Hid [Hsel [-> [-> [Hw Hh]]]]]]. right. exists id. split.
      * apply selected_tiles_In. lia.
      * unfold write_tile. fold nty.
        destruct (Z.eqb_spec (bwidth (Tiles.cropped_tile_box id nty
                                        (tile_size opt) ncols nrows)) 0);
          [contradiction|].
        destruct (Z.eqb_spec (bheight (Tiles.cropped_tile_box id nty
                                        (tile_size opt) ncols nrows)) 0);
          [contradiction|].
        cbn. right. left. reflexivity.
  - split.
    + intros Hin. exfalso. unfold main_tiles in Hin.
      fold (Tiles.num_tiles ncols nrows (tile_size opt)) in Hin. fold n in Hin.
      destruct (Z.geb_spec (tile_index opt) n); [|lia]. cbn in Hin.
      repeat match goal with
             | Hx : _ \/ _ |- _ => destruct Hx
             | Hx : False |- _ => destruct Hx
             | Hx : EvPrint _ = EvWriteTile _ _ |- _ => discriminate Hx
             end.
    + intros [id [Hid [Hsel _]]]. lia.
Qed.

(** What the tile stage writes: with a negative tile index every tile id
    below the tile count, with a tile index below the tile count that tile
    alone, and otherwise nothing; each under its own name and with its
    cropped box, and only if that box is not empty: a tile that has no pixel
    of the mosaic is never written. *)
Theorem written_tiles (opt : Options F) (ncols nrows : Z) name box :
  let nty := Tiles.num_tiles_y nrows (tile_size opt) in
  let n := Tiles.num_tiles ncols nrows (tile_size opt) in
  In (EvWriteTile name box) (fst (main_tiles (opt, (ncols, nrows)))) <->
  exists id,
    0 <= id < n /\ (tile_index opt < 0 \/ id = tile_index opt) /\
    name = (out_prefix opt ++ "-tile-" ++ show id ++ ".tif")%string /\
    box = Tiles.cropped_tile_box id nty (tile_size opt) ncols nrows /\
    0 < bwidth box /\ 0 < bheight box /\
    bcontains box (bmin_x box) (bmin_y box) = true /\
    forall px py, bcontains box px py = true ->
                  0 <= px < ncols /\ 0 <= py < nrows.
Proof.
  intros nty n.
  pose proof (written_tiles_nonzero opt ncols nrows name box) as W.
  cbv zeta in W. fold nty in W. fold n in W. rewrite W. clear W.
  split.
  - intros [id (Hid & Hsel & Hname & Hbox & Hw & Hh)]. exists id.
    pose proof (TilesMore.bcrop_extent
                  (Tiles.tile_box id nty (tile_size opt))
                  (Tiles.mosaic_box ncols nrows)) as [Ew Eh].
    fold (Tiles.cropped_tile_box id nty (tile_size opt) ncols nrows) in Ew, Eh.
    rewrite <- Hbox in Ew, Eh.
    split; [exact Hid|]. split; [exact Hsel|]. split; [exact Hname|].
    split; [exact Hbox|]. split; [lia|]. split; [lia|]. split.
    + unfold bcontains, bwidth, bheight in *.
      rewrite !andb_true_iff, !Z.leb_le, !Z.ltb_lt. lia.
    + intros qx qy Hq. rewrite Hbox in Hq.
      apply TilesMore.cropped_tile_within_mosaic in Hq. lia.
  - intros [id (Hid & Hsel & Hname & Hbox & Hw & Hh & _)]. exists id.
    split; [exact Hid|]. split; [exact Hsel|]. split; [exact Hname|].
    split; [exact Hbox|]. split; lia.
Qed.

(** A mosaic that fits into one tile is written whole, as tile 0, when all
    tiles or tile 0 are asked for. *)
Theorem whole_mosaic_in_one_tile (opt : Options F) (ncols nrows : Z) :
  0 < ncols <= tile_size opt -> 0 < nrows <= tile_size opt ->
  tile_index opt <= 0 ->
  main_tiles (opt, (ncols, nrows))
  = ([EvPrint (size_message ncols nrows);
      EvPrint (count_message 1 1);
      EvPrint ("Writing: " ++ tile_name (out_prefix opt) 0);
      EvWriteTile (tile_name (out_prefix opt) 0) (mkBBox2i 0 0 ncols nrows)],
     Ok 0).
Proof.
  intros Hc Hr Hidx.
  assert (Hx : Tiles.num_tiles_x ncols (tile_size opt) = 1).
  { destruct (TilesMore.axis_count_spec ncols (tile_size opt) ltac:(lia))
      as [H1 [_ Hm]]. specialize (Hm 1 ltac:(lia) ltac:(lia)).
    unfold Tiles.num_tiles_x. lia. }
  assert (Hy : Tiles.num_tiles_y nrows (tile_size opt) = 1).
  { destruct (TilesMore.axis_count_spec nrows (tile_size opt) ltac:(lia))
      as [H1 [_ Hm]]. specialize (Hm 1 ltac:(lia) ltac:(lia)).
    unfold Tiles.num_tiles_y. lia. }
  assert (Hn : Tiles.num_tiles ncols nrows (tile_size opt) = 1)
    by (unfold Tiles.num_tiles; rewrite Hx, Hy; reflexivity).
  rewrite (DriverFacts.main_tiles_loop opt ncols nrows ltac:(lia)).
  rewrite Hn, Hx, Hy.
  assert (Hsel : selected_tiles (tile_index opt) 1 = [0]).
  { unfold selected_tiles.
    destruct (Z.ltb_spec (tile_index opt) 0); [reflexivity|].
    replace (tile_index opt) with 0 by lia. reflexivity. }
  rewrite Hsel. cbn [flat_map]. rewrite app_nil_r.
  assert (Hbox : Tiles.cropped_tile_box 0 1 (tile_size opt) ncols nrows
                 = mkBBox2i 0 0 ncols nrows).
  { unfold Tiles.cropped_tile_box, Tiles.tile_box, Tiles.mosaic_box,
      BBox2i_xywh, bcrop. cbn.
    destruct (Z.gtb_spec (tile_size opt) ncols);
      destruct (Z.gtb_spec (tile_size opt) nrows);
      repeat match goal with
             | |- context [if ?a <? ?c then _ else _] =>
                 destruct (Z.ltb_spec a c)
             end; f_equal; lia. }
  unfold write_tile. rewrite Hbox. unfold bwidth, bheight. cbn.
  destruct (Z.eqb_spec (ncols - 0) 0); [lia|].
  destruct (Z.eqb_spec (nrows - 0) 0); [lia|].
  reflexivity.
Qed.

End More.

(** *** Tile file names *)

Lemma show_inj (n m : Z) : show n = show m -> n = m.
Proof.
  unfold show. intros E.
  assert (Hn : forall z, NilZero.int_of_string
                           (NilZero.string_of_int (Z.to_int z))
                         = Some (Z.to_int z)).
  { intros z. apply NilZero.isi; destruct z; cbn; try discriminate;
      intros Hz; inversion Hz as [Hz'];
      apply (Unsigned.to_uint_nonnil _ Hz'). }
  pose proof (Hn n) as E1. rewrite E, Hn in E1. inversion E1 as [E2].
  symmetry. apply DecimalZ.to_int_inj, E2.
Qed.

Lemma append_inv_head (p a b : string) :
  (p ++ a)%string = (p ++ b)%string -> a = b.
Proof.
  induction p as [|c p IH]; cbn; intros E; [exact E|].
  inversion E. auto.
Qed.

Lemma list_ascii_of_append (a b : string) :
  list_ascii_of_string (a ++ b)
  = (list_ascii_of_string a ++ list_ascii_of_string b)%list.
Proof. induction a as [|c a IH]; cbn; [reflexivity | now rewrite IH]. Qed.

Lemma append_inv_tail (a b q : string) :
  (a ++ q)%string = (b ++ q)%string -> a = b.
Proof.
  intros E. apply (f_equal list_ascii_of_string) in E.
  rewrite !list_ascii_of_append in E. apply app_inv_tail in E.
  rewrite <- (string_of_list_ascii_of_string a),
          <- (string_of_list_ascii_of_string b), E.
  reflexivity.
Qed.

(** Different tile ids get different file names, so no tile of a run
    overwrites another. *)
Theorem tile_names_distinct (prefix : string) (i j : Z) :
  i <> j -> tile_name prefix i <> tile_name prefix j.
Proof.
  unfold tile_name. intros Hij E. apply Hij.
  apply append_inv_head in E. apply append_inv_head in E.
  apply append_inv_tail in E. apply show_inj, E.
Qed.

Lemma tile_names_distinct_witness :
  tile_name "out" 3 = "out-tile-3.tif"%string /\
  tile_name "out" 3 <> tile_name "out" 4.
Proof.
  split; [reflexivity|]. apply (tile_names_distinct "out" 3 4). lia.
Defined.

End DriverMore.

(** ** More on the weights *)

Module WeightsMore.
Import Weights.

(** On the pixels of the image erosion is a plain subtraction cut off at
    zero: the ceiling of the clamp is never reached there, and the eroded
    weight is zero exactly where the weight does not exceed [erode_len]. *)
Theorem erosion_subtracts (nc nr erode_len : Z) (w : Z -> Z -> Z) (c r : Z) :
  0 <= c < nc -> 0 <= r < nr ->
  erode nc nr erode_len w c r = Z.max 0 (w c r - erode_len) /\
  (erode nc nr erode_len w c r = 0 <-> w c r <= erode_len).
Proof.
  intros Hc Hr.
  destruct (WeightsFacts.max_pixel_value_spec nc nr w ltac:(lia) ltac:(lia))
    as [Hub _].
  specialize (Hub c r Hc Hr).
  assert (E : erode nc nr erode_len w c r = Z.max 0 (w c r - erode_len)).
  { unfold erode, clamp.
    destruct (Z.leb_spec (max_pixel_value nc nr w) erode_len);
      match goal with
      | |- context [?x >? ?y] => destruct (Z.gtb_spec x y); [lia|]
      end;
      destruct (Z.ltb_spec (w c r - erode_len) 0); lia. }
  split; [exact E|]. rewrite E. lia.
Qed.

Lemma erosion_subtracts_witness :
  erode 2 1 2 (fun c _ => if c =? 0 then 5 else 1) 0 0 = 3 /\
  erode 2 1 2 (fun c _ => if c =? 0 then 5 else 1) 1 0 = 0.
Proof.
  destruct (erosion_subtracts 2 1 2 (fun c _ => if c =? 0 then 5 else 1) 0 0
              ltac:(lia) ltac:(lia)) as [E0 _].
  destruct (erosion_subtracts 2 1 2 (fun c _ => if c =? 0 then 5 else 1) 1 0
              ltac:(lia) ltac:(lia)) as [E1 _].
  split; [rewrite E0 | rewrite E1]; reflexivity.
Defined.

End WeightsMore.

(** ** More on the compositor *)

Module CompositorMore.
Import Compositor CompositorViews.

Section More.
Context {F : Type} `{DoubleOps F}.
Variable grassfire : Image F -> Z -> Z -> Z.
Variable interp : Image (GrayA F) -> F -> F -> GrayA F.

Local Abbreviation pixel_contribution :=
  (pixel_contribution grassfire interp).
Local Abbreviation contributions := (contributions grassfire interp).
Local Abbreviation accumulated := (accumulated grassfire interp).
Local Abbreviation prerasterize := (prerasterize grassfire interp).

Lemma source_fun_blend draft_mode erode_len out_nodata bbox c r tw s :
  in_block bbox c r = true ->
  source_fun grassfire interp draft_mode erode_len out_nodata bbox c r tw s
  = match pixel_contribution draft_mode erode_len bbox c r s with
    | Some pval => blend draft_mode out_nodata pval tw
    | None => tw
    end.
Proof.
  intros Hin. unfold source_fun, CompositorViews.pixel_contribution, pixel_fun.
  rewrite Hin. destruct (src_empty s); reflexivity.
Qed.

(** The loop over the DEMs blends the contributions of a pixel in order. *)
Lemma accumulated_blend draft_mode erode_len out_nodata bbox sources c r :
  in_block bbox c r = true ->
  at_px (accumulated draft_mode erode_len out_nodata bbox sources) c r
  = fold_left (fun tw pval => blend draft_mode out_nodata pval tw)
              (contributions draft_mode erode_len bbox c r sources)
              (out_nodata, dzero).
Proof.
  intros Hin. rewrite CompositorFacts.accumulated_at.
  generalize (out_nodata, @dzero F _).
  induction sources as [|s sources IH]; intros tw; [reflexivity|].
  cbn [fold_left]. rewrite IH, (source_fun_blend _ _ _ _ _ _ _ _ Hin).
  unfold CompositorViews.contributions. cbn [flat_map].
  rewrite fold_left_app.
  destruct (pixel_contribution draft_mode erode_len bbox c r s); reflexivity.
Qed.

Lemma fold_last {A B} (f : A -> B) (l : list A) (b : B) :
  fold_left (fun _ a => f a) l b
  = match rev l with [] => b | a :: _ => f a end.
Proof.
  revert b. induction l as [|a l IH]; intros b; [reflexivity|].
  cbn [fold_left rev]. rewrite IH.
  destruct (rev l); reflexivity.
Qed.

(** Draft mode: after the loop over the DEMs a pixel of the block holds the
    value of the last DEM that contributes to it, with weight 1, and the
    initial no-data value and weight 0 when no DEM does; the earlier
    contributions leave no trace. *)
Theorem draft_last_contribution_wins erode_len out_nodata bbox sources c r :
  in_block bbox c r = true ->
  at_px (accumulated true erode_len out_nodata bbox sources) c r
  = match rev (contributions true erode_len bbox c r sources) with
    | [] => (out_nodata, dzero)
    | pval :: _ => (pv pval, done)
    end.
Proof.
  intros Hin. rewrite (accumulated_blend _ _ _ _ _ _ _ Hin).
  apply (fold_last (fun pval => (pv pval, @done F _))).
Qed.

Lemma fold_pair {A} (f g : F -> A -> F) (l : list A) (t w : F) :
  fold_left (fun tw a => (f (fst tw) a, g (snd tw) a)) l (t, w)
  = (fold_left f l t, fold_left g l w).
Proof.
  revert t w. induction l as [|a l IH]; intros t w; [reflexivity|].
  cbn [fold_left fst snd]. apply IH.
Qed.

Lemma blended_buffers erode_len out_nodata bbox sources c r :
  in_block bbox c r = true ->
  at_px (accumulated false erode_len out_nodata bbox sources) c r
  = (running_sum out_nodata (contributions false erode_len bbox c r sources),
     weight_sum (contributions false erode_len bbox c r sources)).
Proof.
  intros Hin. rewrite (accumulated_blend _ _ _ _ _ _ _ Hin).
  set (contribs := contributions false erode_len bbox c r sources).
  change (fun tw pval => blend false out_nodata pval tw)
    with (fun (tw : F * F) (pval : GrayA F) =>
            (dadd (restart out_nodata (fst tw)) (dmul (pa pval) (pv pval)),
             dadd (snd tw) (pa pval))).
  rewrite (fold_pair
             (fun t pval => dadd (restart out_nodata t)
                                 (dmul (pa pval) (pv pval)))
             (fun w pval => dadd w (pa pval))).
  unfold running_sum, running_sum_from, weight_sum. f_equal.
  generalize (@dzero F _). generalize contribs. clear.
  intros l. induction l as [|p l IH]; intros w; [reflexivity|].
  cbn [fold_left map]. apply IH.
Qed.

(** Blended mode: after the loop over the DEMs the weight of a pixel of the
    block is the sum, in the order of the DEMs, of the contributing weights,
    and its value is the running sum of weight times value, which restarts
    from 0 at every contribution that finds it equal to the output no-data
    value or NaN. *)
Theorem blended_sums erode_len out_nodata bbox sources c r :
  in_block bbox c r = true ->
  let acc := accumulated false erode_len out_nodata bbox sources in
  let contribs := contributions false erode_len bbox c r sources in
  weights acc c r = fold_left dadd (map pa contribs) dzero /\
  tile acc c r
  = fold_left (fun t pval => dadd (restart out_nodata t)
                                  (dmul (pa pval) (pv pval)))
              contribs out_nodata.
Proof.
  intros Hin acc contribs.
  pose proof (blended_buffers erode_len out_nodata bbox sources c r Hin) as E.
  unfold at_px in E. injection E as Et Ew. split; assumption.
Qed.

Lemma running_sum_app out_nodata (l1 l2 : list (GrayA F)) :
  running_sum out_nodata (l1 ++ l2)
  = running_sum_from out_nodata (running_sum out_nodata l1) l2.
Proof. apply fold_left_app. Qed.

(** Blended mode: when the running sum of a pixel happens to equal the
    output no-data value after some contributions, the next contribution
    restarts it from 0: the values of the earlier DEMs are dropped from the
    sum, while their weights stay in the weight the sum is later divided
    by. *)
Theorem sum_equal_to_nodata_restarts erode_len out_nodata bbox sources c r
        (earlier later : list (GrayA F)) :
  in_block bbox c r = true ->
  contributions false erode_len bbox c r sources = earlier ++ later ->
  later <> [] ->
  deqb out_nodata out_nodata || disnan out_nodata = true ->
  deqb (running_sum out_nodata earlier) out_nodata = true ->
  let acc := accumulated false erode_len out_nodata bbox sources in
  tile acc c r = running_sum out_nodata later /\
  weights acc c r = weight_sum (earlier ++ later).
Proof.
  intros Hin Hc Hlater Hself Hhit acc.
  pose proof (blended_buffers erode_len out_nodata bbox sources c r Hin) as E.
  unfold at_px in E. injection E as Et Ew. rewrite Hc in Et, Ew.
  split; [|exact Ew].
  unfold acc. rewrite Et, running_sum_app.
  destruct later as [|p later]; [contradiction|].
  change (running_sum out_nodata (p :: later))
    with (running_sum_from out_nodata out_nodata (p :: later)).
  unfold running_sum_from. cbn [fold_left].
  assert (E1 : restart out_nodata (running_sum out_nodata earlier) = dzero)
    by (unfold restart; rewrite Hhit; reflexivity).
  assert (E2 : restart out_nodata out_nodata = dzero)
    by (unfold restart; rewrite Hself; reflexivity).
  rewrite E1, E2. reflexivity.
Qed.

Lemma contribution_positive (dem : Image (GrayA F)) (x y : F) pval :
  contribution interp dem x y = Some pval -> dleb (pa pval) dzero = false.
Proof.
  unfold contribution. destruct (sample interp dem x y) as [q|]; [|discriminate].
  destruct (dleb (pa q) dzero) eqn:E; [discriminate|].
  intros [= <-]. exact E.
Qed.

(** Every contribution has a weight that is not [<= 0]. *)
Lemma contributions_positive draft_mode erode_len bbox c r sources pval :
  In pval (contributions draft_mode erode_len bbox c r sources) ->
  dleb (pa pval) dzero = false.
Proof.
  unfold contributions. rewrite in_flat_map. intros (s & _ & Hp).
  destruct (pixel_contribution draft_mode erode_len bbox c r s) as [q|] eqn:E;
    [|contradiction].
  destruct Hp as [<- | []].
  unfold pixel_contribution in E. destruct (src_empty s); [discriminate|].
  exact (contribution_positive _ _ _ _ E).
Qed.

End More.

Section NoData.
Context {F : Type} `{DoubleOps F}.
Variable grassfire : Image F -> Z -> Z -> Z.
Variable interp : Image (GrayA F) -> F -> F -> GrayA F.

(** The transform gives an invalid pixel distance zero; zero equals and does
    not exceed itself; the floor of a double between 0 and an [int] lies
    between them. *)
Hypothesis grassfire_zero : Library.zero_outside grassfire.
Hypothesis zero_eq_zero : deqb (@dzero F _) dzero = true.
Hypothesis zero_le_zero : dleb (@dzero F _) dzero = true.
Hypothesis floor_in_range :
  forall (x : F) (n : Z),
    n <= 2147483647 -> dleb dzero x = true -> dleb x (of_int n) = true ->
    0 <= floor_int x <= n.

Lemma nodata_local_weight draft_mode s c r :
  all_nodata s -> in_image (src_dem s) c r = true ->
  Weights.local_wts grassfire draft_mode (src_nodata s) (src_dem s) c r = 0.
Proof.
  intros Hall Hin. pose proof (Hall c r Hin) as E.
  unfold Weights.local_wts. destruct draft_mode.
  - unfold Weights.BigOrZero. rewrite E. reflexivity.
  - apply grassfire_zero; [exact Hin|].
    unfold Weights.notnodata, Weights.NotNoDataFunctor. cbn [px].
    rewrite E. exact zero_eq_zero.
Qed.

Lemma nodata_weight_zero draft_mode erode_len s c r :
  0 <= erode_len -> all_nodata s -> in_image (src_dem s) c r = true ->
  pa (px (dem_with_weights grassfire draft_mode erode_len s) c r) = dzero.
Proof.
  intros He Hall Hin.
  destruct (Binary64Facts.in_image_range _ _ _ Hin) as [Hc Hr].
  unfold dem_with_weights. cbn [px pa]. unfold dzero. f_equal.
  apply WeightsFacts.erode_all_zero; try lia.
  destruct (WeightsFacts.max_pixel_value_spec
              (cols (src_dem s)) (rows (src_dem s))
              (Weights.local_wts grassfire draft_mode (src_nodata s)
                                 (src_dem s)) ltac:(lia) ltac:(lia))
    as [_ (c0 & r0 & Hc0 & Hr0 & <-)].
  rewrite nodata_local_weight; [exact He | exact Hall |].
  unfold in_image. rewrite !andb_true_iff, !Z.leb_le. lia.
Qed.

Lemma nodata_no_contribution draft_mode erode_len bbox c r s :
  0 <= erode_len ->
  cols (src_dem s) <= 2147483648 -> rows (src_dem s) <= 2147483648 ->
  all_nodata s ->
  pixel_contribution grassfire interp draft_mode erode_len bbox c r s = None.
Proof.
  intros He Hnc Hnr Hall. unfold pixel_contribution.
  destruct (src_empty s); [reflexivity|].
  generalize (fst (local_coords bbox s c r)).
  generalize (snd (local_coords bbox s c r)). intros y x.
  unfold contribution, sample.
  destruct (on_grid _ x y) eqn:Egrid.
  - unfold on_grid in Egrid. apply andb_true_iff in Egrid.
    destruct Egrid as [_ Ein].
    rewrite (nodata_weight_zero _ _ _ _ _ He Hall Ein), zero_le_zero.
    reflexivity.
  - destruct (is_good _ x y) eqn:Egood; [|reflexivity]. cbn [negb].
    unfold is_good in Egood. rewrite !andb_true_iff in Egood.
    destruct Egood as [[[Hx0 Hx1] Hy0] Hy1].
    cbn [cols rows dem_with_weights] in Hx1, Hy1.
    pose proof (floor_in_range x (cols (src_dem s) - 1) ltac:(lia) Hx0 Hx1)
      as Hi.
    pose proof (floor_in_range y (rows (src_dem s) - 1) ltac:(lia) Hy0 Hy1)
      as Hj.
    assert (Ein : in_image (src_dem s) (floor_int x) (floor_int y) = true).
    { unfold in_image. rewrite !andb_true_iff, !Z.leb_le. lia. }
    unfold some_neighbour_nonpositive.
    rewrite (nodata_weight_zero _ _ _ _ _ He Hall Ein), zero_le_zero.
    reflexivity.
Qed.

(** A DEM all of whose pixels are its no-data value leaves the mosaic as it
    is without that DEM, in both modes and wherever it stands among the
    inputs: it contributes to no pixel. *)
Theorem nodata_dem_changes_nothing draft_mode erode_len out_nodata bbox
        (before after : list Source) (s : Source) (c r : Z) :
  0 <= erode_len ->
  cols (src_dem s) <= 2147483648 -> rows (src_dem s) <= 2147483648 ->
  all_nodata s ->
  in_block bbox c r = true ->
  prerasterize grassfire interp draft_mode erode_len out_nodata bbox
               (before ++ s :: after) c r
  = prerasterize grassfire interp draft_mode erode_len out_nodata bbox
                 (before ++ after) c r.
Proof.
  intros He Hnc Hnr Hall Hin.
  rewrite !(CompositorFacts.prerasterize_at _ _ _ _ _ _ _ _ _ Hin).
  cbv zeta. rewrite !(accumulated_blend _ _ _ _ _ _ _ _ _ Hin).
  unfold contributions. rewrite !flat_map_app. cbn [flat_map].
  rewrite (nodata_no_contribution _ _ _ _ _ _ He Hnc Hnr Hall).
  reflexivity.
Qed.

End NoData.
End CompositorMore.

(** ** More in exact arithmetic *)

Module ExactMore.
Import Compositor CompositorViews Lonlat.

Lemma weight_sum_ge (l : list (GrayA Q)) (a : Q) :
  (forall pval, In pval l -> (0 < pa pval)%Q) ->
  (a <= fold_left Qplus (map pa l) a)%Q.
Proof.
  revert a. induction l as [|p l IH]; intros a Hpos; cbn [fold_left map].
  - lra.
  - pose proof (Hpos p (or_introl eq_refl)) as Hp.
    pose proof (IH (a + pa p)%Q (fun q Hq => Hpos q (or_intror Hq))) as Hl.
    lra.
Qed.

Lemma weight_sum_pos (l : list (GrayA Q)) :
  l <> [] -> (forall pval, In pval l -> (0 < pa pval)%Q) ->
  (0 < weight_sum l)%Q.
Proof.
  intros Hl Hpos. destruct l as [|p l]; [contradiction|].
  unfold weight_sum. cbn [fold_left map].
  pose proof (Hpos p (or_introl eq_refl)) as Hp.
  pose proof (weight_sum_ge l (dadd dzero (pa p))
                            (fun q Hq => Hpos q (or_intror Hq))) as Hge.
  change (dadd dzero (pa p)) with (0 + pa p)%Q in *.
  change (@dadd Q _) with Qplus. lra.
Qed.

Lemma weighted_sum_snoc (l : list (GrayA Q)) (p : GrayA Q) :
  weighted_sum (l ++ [p]) = (weighted_sum l + pa p * pv p)%Q.
Proof. unfold weighted_sum. rewrite fold_left_app. reflexivity. Qed.

Lemma running_sum_snoc (out_nodata : Q) (l : list (GrayA Q)) (p : GrayA Q) :
  running_sum out_nodata (l ++ [p])
  = (restart out_nodata (running_sum out_nodata l) + pa p * pv p)%Q.
Proof.
  unfold running_sum, running_sum_from. rewrite fold_left_app. reflexivity.
Qed.

(** While no running sum equals the no-data value, the tile entry is the
    sum of weight times value. *)
Lemma running_sum_weighted (out_nodata : Q) (l : list (GrayA Q)) :
  l <> [] ->
  (forall l1 l2, l = l1 ++ l2 -> l1 <> [] -> l2 <> [] ->
                 ~ (weighted_sum l1 == out_nodata)%Q) ->
  (running_sum out_nodata l == weighted_sum l)%Q.
Proof.
  induction l as [|p l IH] using rev_ind; intros Hl Hpre; [contradiction|].
  rewrite running_sum_snoc, weighted_sum_snoc.
  destruct l as [|q l].
  - unfold restart. cbn [running_sum running_sum_from fold_left].
    change (deqb out_nodata out_nodata) with (Qeq_bool out_nodata out_nodata).
    rewrite Qeq_bool_refl. reflexivity.
  - assert (Hne : q :: l <> []) by discriminate.
    assert (IH' : (running_sum out_nodata (q :: l)
                   == weighted_sum (q :: l))%Q).
    { apply IH; [exact Hne|]. intros l1 l2 E H1 H2.
      apply (Hpre l1 (l2 ++ [p])); [|exact H1|].
      - rewrite E, app_assoc. reflexivity.
      - destruct l2; discriminate. }
    pose proof (Hpre (q :: l) [p] eq_refl Hne ltac:(discriminate)) as Hn.
    unfold restart.
    change (disnan (running_sum out_nodata (q :: l))) with false.
    change (deqb (running_sum out_nodata (q :: l)) out_nodata)
      with (Qeq_bool (running_sum out_nodata (q :: l)) out_nodata).
    destruct (Qeq_bool (running_sum out_nodata (q :: l)) out_nodata) eqn:E.
    + apply Qeq_bool_iff in E. exfalso. apply Hn. rewrite <- IH'. exact E.
    + cbn [orb]. rewrite IH'. reflexivity.
Qed.

(** In exact arithmetic a blended pixel is the weighted mean of its
    contributions, sum(w * v) / sum(w), as long as no running sum of
    weight times value equals the output no-data value before the last
    contribution. *)
Theorem blended_weighted_mean
        (grassfire : Image Q -> Z -> Z -> Z)
        (interp : Image (GrayA Q) -> Q -> Q -> GrayA Q)
        (erode_len : Z) (out_nodata : Q) (bbox : BBox2i)
        (sources : list Source) (c r : Z) :
  in_block bbox c r = true ->
  let contribs :=
    contributions grassfire interp false erode_len bbox c r sources in
  contribs <> [] ->
  (forall l1 l2, contribs = l1 ++ l2 -> l1 <> [] -> l2 <> [] ->
                 ~ (weighted_sum l1 == out_nodata)%Q) ->
  (prerasterize grassfire interp false erode_len out_nodata bbox sources c r
   == weighted_sum contribs / weight_sum contribs)%Q.
Proof.
  intros Hin contribs Hne Hpre.
  rewrite (CompositorFacts.prerasterize_at _ _ _ _ _ _ _ _ _ Hin).
  cbv zeta. rewrite (CompositorMore.blended_buffers _ _ _ _ _ _ _ _ Hin).
  fold contribs.
  assert (Hpos : (0 < weight_sum contribs)%Q).
  { apply weight_sum_pos; [exact Hne|]. intros p Hp.
    apply ExactFacts.dleb_false.
    exact (CompositorMore.contributions_positive _ _ _ _ _ _ _ _ _ Hp). }
  assert (Hd : dltb dzero (weight_sum contribs) = true)
    by (apply ExactFacts.dltb_true; exact Hpos).
  unfold divide_fun. cbn [fst snd]. rewrite Hd. cbn [fst].
  change (@ddiv Q _) with Qdiv.
  rewrite (running_sum_weighted out_nodata contribs Hne Hpre). reflexivity.
Qed.

(** Rounding half away from zero gives the integer within less than 1/2. *)
Lemma round_half_away_unique (q : Q) (k : Z) :
  (Qabs (q - inject_Z k) < 1 # 2)%Q -> Exact.Qround_half_away q = k.
Proof.
  intros Hk. apply Qabs_Qlt_condition in Hk. destruct Hk as [Hk1 Hk2].
  unfold Exact.Qround_half_away.
  destruct (Qle_bool 0 q) eqn:E.
  - pose proof (Qfloor_le (q + (1 # 2))) as H1.
    pose proof (Qlt_floor (q + (1 # 2))) as H2.
    set (f := Qfloor (q + (1 # 2))) in *.
    assert (Hlo : (inject_Z f < inject_Z (k + 1))%Q)
      by (rewrite inject_Z_plus; change (inject_Z 1) with 1%Q; lra).
    assert (Hhi : (inject_Z k < inject_Z (f + 1))%Q) by lra.
    rewrite <- Zlt_Qlt in Hlo, Hhi. lia.
  - pose proof (Qfloor_le (- q + (1 # 2))) as H1.
    pose proof (Qlt_floor (- q + (1 # 2))) as H2.
    set (f := Qfloor (- q + (1 # 2))) in *.
    assert (Hlo : (inject_Z f < inject_Z (- k + 1))%Q)
      by (rewrite inject_Z_plus, inject_Z_opp;
          change (inject_Z 1) with 1%Q; lra).
    assert (Hhi : (inject_Z (- k) < inject_Z (f + 1))%Q)
      by (rewrite inject_Z_opp; lra).
    rewrite <- Zlt_Qlt in Hlo, Hhi. lia.
Qed.

(** In exact arithmetic the shift is the number of whole turns that brings
    the box centre to less than 180 degrees from the origin longitude, when
    there is one; a box whose centre is already that near is not moved. *)
Theorem shift_is_nearest_turn (georef : GeoReference Q)
        (lonlat_box : BBox2 Q) (k : Z) :
  let origin_longitude := fst (pixel_to_lonlat georef (0, 0)%Q) in
  let center := ((min_x lonlat_box + max_x lonlat_box) / 2)%Q in
  -2147483648 <= k <= 2147483647 ->
  (Qabs (origin_longitude - (center + 360 * inject_Z k)) < 180)%Q ->
  longitude_shift georef lonlat_box = k.
Proof.
  intros origin_longitude center Hfit Hnear.
  change (longitude_shift georef lonlat_box)
    with (to_int (Some (Exact.Qround_half_away
                          ((origin_longitude - center) / 360)))).
  rewrite (round_half_away_unique _ k).
  - unfold to_int. destruct Hfit as [H1 H2].
    apply Z.leb_le in H1. apply Z.leb_le in H2. rewrite H1, H2. reflexivity.
  - apply Qabs_Qlt_condition in Hnear. apply Qabs_Qlt_condition.
    assert (E : ((origin_longitude - center) / 360 * 360
                 == origin_longitude - center)%Q) by field.
    set (q := ((origin_longitude - center) / 360)%Q) in *.
    set (t := inject_Z k) in *. clearbody q t. split; lra.
Qed.

End ExactMore.

(** ** More runs *)

Module MoreRuns.
Import Compositor CompositorViews Driver DriverViews Scenarios MoreScenarios.

Lemma exact_grassfire_zero_outside :
  Library.zero_outside (@Library.grassfire Q _).
Proof.
  intros mask c r _ E. unfold Library.grassfire, Library.mask_valid.
  rewrite E. reflexivity.
Qed.

Lemma exact_floor_in_range (x : Q) (n : Z) :
  n <= 2147483647 -> dleb dzero x = true -> dleb x (of_int n) = true ->
  0 <= floor_int x <= n.
Proof.
  intros Hn H0 H1.
  change (Qle_bool 0 x = true) in H0. change (Qle_bool x (inject_Z n) = true) in H1.
  apply Qle_bool_iff in H0. apply Qle_bool_iff in H1.
  pose proof (Qfloor_le x) as Hf1. pose proof (Qlt_floor x) as Hf2.
  assert (Hlo : (inject_Z 0 < inject_Z (Qfloor x + 1))%Q)
    by (change (inject_Z 0) with 0%Q; lra).
  assert (Hhi : (inject_Z (Qfloor x) <= inject_Z n)%Q) by lra.
  rewrite <- Zlt_Qlt in Hlo. rewrite <- Zle_Qle in Hhi.
  change (floor_int x) with (to_int (Some (Qfloor x))). unfold to_int.
  destruct (Z.leb_spec (-2147483648) (Qfloor x)); [|lia].
  destruct (Z.leb_spec (Qfloor x) 2147483647); [|lia].
  cbn [andb]. lia.
Qed.

Lemma draft_last_contribution_wins_witness :
  at_px (lib_accumulated true 0 (-1)%Q centre_block [five; seven]) 0 0
  = (7%Q, 1%Q).
Proof.
  assert (Hin : in_block centre_block 0 0 = true) by reflexivity.
  pose proof (CompositorMore.draft_last_contribution_wins
                Library.grassfire Library.bilinear 0 (-1)%Q centre_block
                [five; seven] 0 0 Hin) as P.
  unfold lib_accumulated. rewrite P. vm_compute. reflexivity.
Defined.

Lemma blended_sums_witness :
  (weights (lib_accumulated false 0 (-1)%Q centre_block [five; seven]) 0 0
   == 4)%Q /\
  (tile (lib_accumulated false 0 (-1)%Q centre_block [five; seven]) 0 0
   == 24)%Q.
Proof.
  assert (Hin : in_block centre_block 0 0 = true) by reflexivity.
  pose proof (CompositorMore.blended_sums
                Library.grassfire Library.bilinear 0 (-1)%Q centre_block
                [five; seven] 0 0 Hin) as P.
  cbv zeta in P. destruct P as [Ew Et].
  unfold lib_accumulated. rewrite Ew, Et. split; vm_compute; reflexivity.
Defined.

Lemma sum_equal_to_nodata_restarts_witness :
  (tile (lib_accumulated false 0 10%Q centre_block [five; seven]) 0 0
   == 14)%Q /\
  (weights (lib_accumulated false 0 10%Q centre_block [five; seven]) 0 0
   == 4)%Q /\
  (lib_prerasterize false 0 10%Q centre_block [five; seven] 0 0 == 7 # 2)%Q.
Proof.
  assert (Hin : in_block centre_block 0 0 = true) by reflexivity.
  assert (Hc : contributions Library.grassfire Library.bilinear false 0
                 centre_block 0 0 [five; seven]
               = [mkGrayA 5%Q 2%Q] ++ [mkGrayA 7%Q 2%Q])
    by (vm_compute; reflexivity).
  assert (Hhit : deqb (running_sum 10%Q [mkGrayA 5%Q 2%Q]) 10%Q = true)
    by (vm_compute; reflexivity).
  pose proof (CompositorMore.sum_equal_to_nodata_restarts
                Library.grassfire Library.bilinear 0 10%Q centre_block
                [five; seven] 0 0 _ _
                Hin Hc ltac:(discriminate) eq_refl Hhit) as P.
  cbv zeta in P. destruct P as [Et Ew].
  unfold lib_accumulated. rewrite Et, Ew.
  repeat split; vm_compute; reflexivity.
Defined.

Lemma nodata_dem_changes_nothing_witness :
  lib_prerasterize false 0 (-1)%Q centre_block [five; void; seven] 0 0
  = lib_prerasterize false 0 (-1)%Q centre_block [five; seven] 0 0.
Proof.
  assert (Hin : in_block centre_block 0 0 = true) by reflexivity.
  assert (Hnc : cols (src_dem void) <= 2147483648)
    by (vm_compute; discriminate).
  assert (Hnr : rows (src_dem void) <= 2147483648)
    by (vm_compute; discriminate).
  assert (Hall : all_nodata void) by (intros c r _; reflexivity).
  exact (CompositorMore.nodata_dem_changes_nothing
           Library.grassfire Library.bilinear
           exact_grassfire_zero_outside eq_refl eq_refl exact_floor_in_range
           false 0 (-1)%Q centre_block [five] [seven] void 0 0
           ltac:(lia) Hnc Hnr Hall Hin).
Defined.

Lemma blended_weighted_mean_witness :
  (lib_prerasterize false 0 (-1)%Q centre_block [five; seven] 0 0 == 6)%Q.
Proof.
  assert (Hin : in_block centre_block 0 0 = true) by reflexivity.
  assert (Hc : contributions Library.grassfire Library.bilinear false 0
                 centre_block 0 0 [five; seven]
               = [mkGrayA 5%Q 2%Q; mkGrayA 7%Q 2%Q])
    by (vm_compute; reflexivity).
  pose proof (ExactMore.blended_weighted_mean
                Library.grassfire Library.bilinear 0 (-1)%Q centre_block
                [five; seven] 0 0 Hin) as P.
  cbv zeta in P. rewrite Hc in P.
  unfold lib_prerasterize. rewrite P.
  - vm_compute. reflexivity.
  - discriminate.
  - intros l1 l2 E H1 H2.
    destruct l1 as [|a [|b l1]]; [contradiction | |].
    + injection E as <- _. vm_compute. discriminate.
    + destruct l2; [contradiction|]. injection E as _ _ E.
      destruct l1; discriminate.
Defined.

Lemma shift_is_nearest_turn_witness :
  Lonlat.longitude_shift far_georef near_box = 1.
Proof.
  apply (ExactMore.shift_is_nearest_turn far_georef near_box 1).
  - lia.
  - vm_compute. reflexivity.
Defined.

Lemma adjusted_center_near_origin_witness :
  (Qabs (370 - (Lonlat.min_x (Lonlat.adjusted_box far_georef near_box) +
                Lonlat.max_x (Lonlat.adjusted_box far_georef near_box)) / 2)
   <= 180)%Q.
Proof.
  apply (LonlatFacts.adjusted_center_near_origin far_georef near_box).
  vm_compute. split; discriminate.
Defined.

Lemma output_nodata_resolution_witness :
  exists t opt,
    main_open (-1)%Q (fun _ => []) nodata_disk (fun srs => srs)
              base_options ["a.tif"%string] false
    = (t, Ok (opt, 1%Q)) /\
    out_nodata_value opt = (-32768)%Q /\
    In (EvPrintValue "Using output no-data value: " (-32768)%Q) t /\
    In (EvOpenRaster "a.tif") t.
Proof.
  destruct (main_open (-1)%Q (fun _ => []) nodata_disk (fun srs => srs)
                      base_options ["a.tif"%string] false)
    as [t [[opt spacing]|e]] eqn:E; [|vm_compute in E; discriminate].
  assert (Hd : nodata_disk (hd ""%string
                               (accepted_files (fun _ => []) base_options
                                               ["a.tif"%string]))
               = Some (mkFileInfo (Some (-32768)%Q)
                                  (Some "+proj=a"%string) 1%Q))
    by (vm_compute; reflexivity).
  destruct (DriverMore.output_nodata_resolution
              (-1)%Q (fun _ => []) nodata_disk (fun srs => srs)
              base_options ["a.tif"%string] false t opt spacing _
              Hd E) as (E1 & E2 & E3).
  exists t, opt. split.
  - vm_compute in E. injection E as _ _ <-. reflexivity.
  - split; [exact E1 | split; [exact E2 | apply E3; reflexivity]].
Defined.

Lemma projection_accepted_iff_witness :
  exists t opt,
    main_open (-1)%Q (fun _ => []) one_dem_disk (fun srs => srs)
              base_options ["a.tif"%string] false
    = (t, Ok (opt, 1%Q)).
Proof.
  assert (Ha : arguments_accepted (fun _ => []) base_options
                                  ["a.tif"%string] = true)
    by (vm_compute; reflexivity).
  assert (Hd : one_dem_disk (hd ""%string
                                (accepted_files (fun _ => []) base_options
                                                ["a.tif"%string]))
               = Some (mkFileInfo None (Some "+proj=a"%string) 1%Q))
    by (vm_compute; reflexivity).
  assert (Hp : projection_change_without_resolution
                 (fun srs => srs) base_options "+proj=a" = false)
    by (vm_compute; reflexivity).
  exact (proj2 (DriverMore.projection_accepted_iff
                  (-1)%Q (fun _ => []) one_dem_disk (fun srs => srs)
                  base_options ["a.tif"%string] false
                  (mkFileInfo None (Some "+proj=a"%string) 1%Q) "+proj=a"
                  Ha Hd eq_refl) Hp).
Defined.

Lemma missing_georeference_fatal_witness :
  exists t,
    main (-1)%Q (fun _ => []) bare_disk (fun srs => srs) two_by_one
         base_options ["a.tif"%string] false
    = (t ++ [EvPrint (no_georeference_message "a.tif")], 1).
Proof.
  assert (Ha : arguments_accepted (fun _ => []) base_options
                                  ["a.tif"%string] = true)
    by (vm_compute; reflexivity).
  assert (Hd : bare_disk (hd ""%string
                             (accepted_files (fun _ => []) base_options
                                             ["a.tif"%string]))
               = Some (mkFileInfo None None 1%Q))
    by (vm_compute; reflexivity).
  destruct (DriverMore.missing_georeference_fatal
              (-1)%Q (fun _ => []) bare_disk (fun srs => srs) two_by_one
              base_options ["a.tif"%string] false
              (mkFileInfo None None 1%Q) Ha Hd eq_refl)
    as [t [E _]].
  exists t. exact E.
Defined.

Lemma tile_size_at_least_one_witness :
  exists t opt' size,
    main_measure two_by_one (quarter_unit_tiles, 1%Q) = (t, Ok (opt', size)) /\
    tile_size opt' = 1.
Proof.
  destruct (main_measure two_by_one (quarter_unit_tiles, 1%Q))
    as [t [[opt' size]|e]] eqn:E; [|vm_compute in E; discriminate].
  exists t, opt', size. split; [reflexivity|].
  exact (proj1 (proj2 (DriverMore.tile_size_at_least_one
                         two_by_one quarter_unit_tiles 1%Q t opt' size E))).
Defined.

Lemma whole_mosaic_in_one_tile_witness :
  exists msg1 msg2,
    main_tiles (base_options, (2, 1))
    = ([EvPrint msg1; EvPrint msg2;
        EvPrint "Writing: out-tile-0.tif";
        EvWriteTile "out-tile-0.tif" (mkBBox2i 0 0 2 1)],
       Ok 0).
Proof.
  eexists. eexists.
  apply (DriverMore.whole_mosaic_in_one_tile base_options 2 1);
    vm_compute; intuition discriminate.
Defined.

(** The 3 x 1 mosaic with one-pixel tiles: the tile ids 1 and 2 have no
    pixel of the mosaic and are skipped. *)
Lemma tiles_outside_are_skipped :
  main_tiles (one_pixel_tiles, (3, 1)) =
  ([EvPrint "The size of the mosaic is 3 x 1 pixels.";
    EvPrint "Number of tiles: 3 x 1 = 3";
    EvPrint "Writing: out-tile-0.tif";
    EvWriteTile "out-tile-0.tif" (mkBBox2i 0 0 1 1);
    EvPrint "Skip writing empty image: out-tile-1.tif";
    EvPrint "Skip writing empty image: out-tile-2.tif"], Ok 0).
Proof. vm_compute. reflexivity. Qed.

Lemma written_tiles_witness :
  In (EvWriteTile "out-tile-0.tif" (mkBBox2i 0 0 1 1))
     (fst (main_tiles (one_pixel_tiles, (3, 1)))).
Proof.
  apply (DriverMore.written_tiles one_pixel_tiles 3 1).
  exists 0.
  split; [vm_compute; split; [discriminate | reflexivity]|].
  split; [left; reflexivity|].
  split; [reflexivity|]. split; [reflexivity|].
  split; [reflexivity|]. split; [reflexivity|]. split; [reflexivity|].
  intros qx qy Hq. unfold bcontains in Hq. cbn in Hq.
  rewrite !andb_true_iff, !Z.leb_le, !Z.ltb_lt in Hq. lia.
Defined.

End MoreRuns.
